(** * The bunq command-line client: credential handshake and request dispatch

    A shallow embedding of [src/client.js] (the signer and the request
    dispatcher), of the authentication commands ([setupAuth] and
    [refreshSession]) and of the [config set] action, together with the
    properties of the credential life cycle that the specification states.

    JavaScript values are modelled by [value]; the persisted configuration
    is a finite map from field names to values; the commands are written in
    a state monad over [World] whose results distinguish a normal return, a
    thrown exception and [process.exit]. What the platform supplies at run
    time (key generation, RSA signing, UUIDs, the HTTP transport, the two
    base endpoints) is gathered in a [Runtime] record the definitions are
    parametric in. *)

From Stdlib Require Import ZArith Ascii.
From stdpp Require Import gmap strings pretty list.

Set Warnings "-register-all".

(** ** JavaScript values *)

(** JSON data as the client sees it. Numbers are the integers that
    JavaScript prints in plain decimal notation (fractions are outside of
    the model); objects keep their fields in order, each key occurring
    once. *)
Inductive value : Type :=
  | JUndefined
  | JNull
  | JBool (b : bool)
  | JNum (z : Z)
  | JStr (s : string)
  | JArr (elems : list value)
  | JObj (fields : list (string * value)).

(** [!!v]: the values that are not [undefined], [null], [false], [0], [""]. *)
Definition truthy (v : value) : bool :=
  match v with
  | JUndefined | JNull => false
  | JBool b => b
  | JNum z => negb (z =? 0)%Z
  | JStr s => negb (bool_decide (s = ""))
  | JArr _ | JObj _ => true
  end.

(** A parameter declared [= null]: [undefined] is replaced by [null]. *)
Definition or_null (v : value) : value :=
  match v with
  | JUndefined => JNull
  | _ => v
  end.

(** [a || b] *)
Definition js_or (a b : value) : value := if truthy a then a else b.

Fixpoint join (sep : string) (l : list string) : string :=
  match l with
  | [] => ""
  | [s] => s
  | s :: rest => s +:+ sep +:+ join sep rest
  end.

(** [String(v)]. An array prints its elements separated by commas, with
    [null] and [undefined] elements printed as nothing. *)
Fixpoint String_ (v : value) : string :=
  match v with
  | JUndefined => "undefined"
  | JNull => "null"
  | JBool true => "true"
  | JBool false => "false"
  | JNum z => pretty z
  | JStr s => s
  | JArr elems =>
      join "," (map (fun e => match e with
                              | JUndefined | JNull => ""
                              | _ => String_ e
                              end) elems)
  | JObj _ => "[object Object]"
  end.

(** The double quote and the backslash. *)
Definition DQ : string := String "034"%char EmptyString.
Definition BS : string := String "092"%char EmptyString.

Definition hex_digit (n : nat) : string :=
  match n with
  | 0 => "0" | 1 => "1" | 2 => "2" | 3 => "3" | 4 => "4" | 5 => "5"
  | 6 => "6" | 7 => "7" | 8 => "8" | 9 => "9" | 10 => "a" | 11 => "b"
  | 12 => "c" | 13 => "d" | 14 => "e" | _ => "f"
  end.

(** One character of a JSON string: the quote, the backslash and the
    control characters are escaped. *)
Definition json_escape (c : ascii) : string :=
  let n := nat_of_ascii c in
  if (n =? 34)%nat then BS +:+ DQ
  else if (n =? 92)%nat then BS +:+ BS
  else if (n =? 8)%nat then BS +:+ "b"
  else if (n =? 12)%nat then BS +:+ "f"
  else if (n =? 10)%nat then BS +:+ "n"
  else if (n =? 13)%nat then BS +:+ "r"
  else if (n =? 9)%nat then BS +:+ "t"
  else if (n <? 32)%nat
       then BS +:+ "u00" +:+ hex_digit (n / 16) +:+ hex_digit (n mod 16)
  else String c EmptyString.

Fixpoint json_escape_all (s : string) : string :=
  match s with
  | EmptyString => EmptyString
  | String c rest => json_escape c +:+ json_escape_all rest
  end.

Definition json_quote (s : string) : string := DQ +:+ json_escape_all s +:+ DQ.

(** [JSON.stringify(v)] on the values of the model; [None] is the
    [undefined] it returns for [undefined]. In an array [undefined] prints
    as [null], in an object a field that is [undefined] is left out. *)
Fixpoint JSON_stringify (v : value) : option string :=
  match v with
  | JUndefined => None
  | JNull => Some "null"
  | JBool true => Some "true"
  | JBool false => Some "false"
  | JNum z => Some (pretty z)
  | JStr s => Some (json_quote s)
  | JArr elems =>
      Some ("[" +:+ join "," (map (fun e => default "null" (JSON_stringify e))
                                  elems) +:+ "]")
  | JObj fields =>
      Some ("{" +:+
            join ","
              ((fix members (fields : list (string * value)) : list string :=
                  match fields with
                  | [] => []
                  | (k, x) :: rest =>
                      match JSON_stringify x with
                      | Some printed =>
                          (json_quote k +:+ ":" +:+ printed) :: members rest
                      | None => members rest
                      end
                  end) fields) +:+ "}")
  end.

(** A value of type string-or-undefined inside a template literal. *)
Definition template (o : option string) : string := default "undefined" o.

Fixpoint lookup_field (k : string) (fields : list (string * value)) : value :=
  match fields with
  | [] => JUndefined
  | (k', v) :: rest => if bool_decide (k' = k) then v else lookup_field k rest
  end.

(** ** Errors and completions *)

(** The exceptions of the program: [new Error(message)], the [TypeError]s of
    the runtime, and the rejections of axios, which carry [err.response]
    (status and data) when the server answered outside of 2xx. *)
Inductive js_error : Type :=
  | Error_ (message : string)
  | TypeError_ (message : string)
  | AxiosError_ (message : string) (response : option (Z * value)).

Definition err_message (e : js_error) : string :=
  match e with
  | Error_ m | TypeError_ m | AxiosError_ m _ => m
  end.

Definition err_response (e : js_error) : option (Z * value) :=
  match e with
  | AxiosError_ _ r => r
  | _ => None
  end.

(** How a piece of code ends: it returns, it throws, or the process exits. *)
Inductive completion (A : Type) : Type :=
  | Normal (a : A)
  | Throw (e : js_error)
  | Exit (code : Z).

Arguments Normal {A} a.
Arguments Throw {A} e.
Arguments Exit {A} code.

Definition cbind {A B} (c : completion A) (k : A -> completion B) : completion B :=
  match c with
  | Normal a => k a
  | Throw e => Throw e
  | Exit n => Exit n
  end.

(** [v.k]: reading a property of [undefined] or [null] throws; the property
    names the client reads ([Response], [Token], [token], [id], ...) are no
    built-in property of a string, a number, a boolean or an array, so that
    these yield [undefined]. *)
Definition prop (v : value) (k : string) : completion value :=
  match v with
  | JUndefined | JNull =>
      Throw (TypeError_ ("Cannot read properties of " +:+ String_ v +:+
                         " (reading '" +:+ k +:+ "')"))
  | JObj fields => Normal (lookup_field k fields)
  | _ => Normal JUndefined
  end.

Fixpoint chars (s : string) : list value :=
  match s with
  | EmptyString => []
  | String c rest => JStr (String c EmptyString) :: chars rest
  end.

(** The values [for (const item of v)] runs through: the elements of an
    array, the characters of a string; anything else is not iterable. *)
Definition iterate (what : string) (v : value) : completion (list value) :=
  match v with
  | JArr elems => Normal elems
  | JStr s => Normal (chars s)
  | _ => Throw (TypeError_ (what +:+ " is not iterable"))
  end.

(** A [for ... of] loop over [items] with the loop's variables in [acc]. *)
Fixpoint for_of {S} (body : S -> value -> completion S) (items : list value)
    (acc : S) : completion S :=
  match items with
  | [] => Normal acc
  | item :: rest => cbind (body acc item) (for_of body rest)
  end.

(** [s.toUpperCase()] on ASCII letters; other bytes are left as they are. *)
Definition upper_ascii (c : ascii) : ascii :=
  let n := nat_of_ascii c in
  if (97 <=? n)%nat && (n <=? 122)%nat then ascii_of_nat (n - 32) else c.

Fixpoint toUpperCase (s : string) : string :=
  match s with
  | EmptyString => EmptyString
  | String c rest => String (upper_ascii c) (toUpperCase rest)
  end.

(** The line feed of a template literal. *)
Definition LF : string := String "010"%char EmptyString.

(** ** The world the commands run in *)

(** What axios is called with. *)
Record Request : Type := {
  req_method : string;
  req_url : string;
  req_data : value;
  req_headers : gmap string value
}.

(** What the commands print: [error], [info] and [success] of the output
    module, and the spinner. *)
Inductive Event : Type :=
  | ErrorLine (msg : string)
  | InfoLine (msg : string)
  | SuccessLine (msg : string)
  | SpinnerStart (text : string)
  | SpinnerText (text : string)
  | SpinnerSucceed (text : string)
  | SpinnerFail (text : string).

(** The persisted configuration [store], the requests sent so far (oldest
    first), the number of key pairs and of UUIDs drawn so far, and the
    console. *)
Record World : Type := {
  store : gmap string value;
  requests : list Request;
  keypairs : nat;
  uuids : nat;
  console : list Event
}.

(** What the platform supplies. [rt_generateKeyPairSync n] is the [n]-th key
    pair [crypto.generateKeyPairSync] hands out, as PEM strings (private,
    public); [rt_sign key data] is the base64 RSA-SHA256 signature
    [createSign('SHA256').update(data).sign(key, 'base64')], or what it
    throws; [rt_axios n r] is the outcome of the [n]-th HTTP call when it
    sends [r]: the response data or the rejection; [rt_sandboxUrl] and
    [rt_productionUrl] are the base endpoints of the two environments,
    constants of the configuration module. *)
Record Runtime : Type := {
  rt_generateKeyPairSync : nat -> string * string;
  rt_randomUUID : nat -> string;
  rt_sign : value -> string -> js_error + string;
  rt_axios : nat -> Request -> js_error + value;
  rt_sandboxUrl : string;
  rt_productionUrl : string
}.

(** Commands: state passing over the world. *)
Definition M (A : Type) : Type := World -> completion A * World.

Definition ret {A} (a : A) : M A := fun w => (Normal a, w).

Definition bind {A B} (m : M A) (k : A -> M B) : M B :=
  fun w =>
    match m w with
    | (Normal a, w') => k a w'
    | (Throw e, w') => (Throw e, w')
    | (Exit n, w') => (Exit n, w')
    end.

Notation "x <- m ;; k" := (bind m (fun x => k))
  (at level 100, m at next level, right associativity).
Notation "m ;;; k" := (bind m (fun _ => k))
  (at level 100, right associativity).

(** A pure computation that may throw. *)
Definition lift {A} (c : completion A) : M A := fun w => (c, w).

Definition throw {A} (e : js_error) : M A := fun w => (Throw e, w).

(** [try { body } catch (err) { handler }]: [process.exit] is not caught. *)
Definition try_catch {A} (body : M A) (handler : js_error -> M A) : M A :=
  fun w =>
    match body w with
    | (Throw e, w') => handler e w'
    | r => r
    end.

(** [process.exit(code)] *)
Definition process_exit {A} (code : Z) : M A := fun w => (Exit code, w).

Definition log_event (ev : Event) (w : World) : World :=
  {| store := store w; requests := requests w; keypairs := keypairs w;
     uuids := uuids w; console := console w ++ [ev] |}.

Definition update_store (f : gmap string value -> gmap string value)
    (w : World) : World :=
  {| store := f (store w); requests := requests w; keypairs := keypairs w;
     uuids := uuids w; console := console w |}.

Definition emit (ev : Event) : M unit := fun w => (Normal tt, log_event ev w).

Definition with_store (f : gmap string value -> gmap string value) : M unit :=
  fun w => (Normal tt, update_store f w).

(** ** The configuration module *)

(** Modelled from the spec: the configuration module ([config.js], with
    [store], [getConfig] and [getBaseUrl]) is not among the sources. The
    store is the key-value persistence the specification describes (read,
    write and delete by field name); [getConfig()] is a snapshot of the
    stored fields, an absent field reading as [undefined]; [getBaseUrl()]
    is the endpoint of the selected environment. *)
Definition store_set (k : string) (v : value) : M unit := with_store (insert k v).

Definition store_delete (k : string) : M unit := with_store (delete k).

Definition store_clear : M unit := with_store (fun _ => ∅).

Definition getConfig : M (gmap string value) := fun w => (Normal (store w), w).

Definition field (config : gmap string value) (k : string) : value :=
  default JUndefined (config !! k).

Definition getBaseUrl (rt : Runtime) : M string :=
  fun w => (Normal (if truthy (field (store w) "sandbox")
                    then rt_sandboxUrl rt else rt_productionUrl rt), w).

(** ** The output module *)

Definition error (msg : string) : M unit := emit (ErrorLine msg).
Definition info (msg : string) : M unit := emit (InfoLine msg).
Definition success (msg : string) : M unit := emit (SuccessLine msg).

(** What [handleError(err)] prints before it leaves with status 1. *)
Definition handleError_line (err : js_error) : string :=
  match err_response err with
  | Some (status, data) =>
      "HTTP " +:+ pretty status +:+ ": " +:+ template (JSON_stringify data)
  | None =>
      if truthy (JStr (err_message err)) then err_message err
      else "An unknown error occurred."
  end.

Definition handleError {A} (err : js_error) : M A :=
  error (handleError_line err) ;;; process_exit 1.

(** ** client.js *)

(** [createSign('SHA256').update(data).sign(key, 'base64')]: Node refuses a
    missing key before it looks at it. *)
Definition createSign_sign (rt : Runtime) (key : value) (data : string)
    : completion string :=
  if truthy key then
    match rt_sign rt key data with
    | inr signature => Normal signature
    | inl err => Throw err
    end
  else Throw (Error_ "No key provided to sign").

(** The string that is signed. *)
Definition dataToSign (method endpoint : string) (body : value) : string :=
  let bodyString := if truthy body then JSON_stringify body else Some "" in
  toUpperCase method +:+ " /v1" +:+ endpoint +:+ LF +:+ LF
    +:+ template bodyString.

Definition signRequest (rt : Runtime) (method endpoint : string)
    (body privateKeyPem : value) : completion string :=
  let data := dataToSign method endpoint body in
  match createSign_sign rt privateKeyPem data with
  | Throw _ => Normal ""
  | r => r
  end.

Definition randomUUID (rt : Runtime) : M string :=
  fun w => (Normal (rt_randomUUID rt (uuids w)),
            {| store := store w; requests := requests w; keypairs := keypairs w;
               uuids := S (uuids w); console := console w |}).

(** [await axios(r)]: the request is recorded, and the call returns
    [response.data] or throws the rejection. *)
Definition axios (rt : Runtime) (r : Request) : M value :=
  fun w =>
    let w' := {| store := store w; requests := requests w ++ [r];
                 keypairs := keypairs w; uuids := uuids w;
                 console := console w |} in
    match rt_axios rt (length (requests w)) r with
    | inr data => (Normal data, w')
    | inl err => (Throw err, w')
    end.

(** The body of [bunqRequest], once the parameters have their defaults. *)
Definition bunqRequest_body (rt : Runtime) (method endpoint : string)
    (body token : value) : M value :=
  config <- getConfig ;;
  baseUrl <- getBaseUrl rt ;;
  let authToken :=
    js_or (js_or token (field config "sessionToken"))
          (field config "installationToken") in
  uuid <- randomUUID rt ;;
  let headers : gmap string value :=
    <["X-Bunq-Geolocation" := JStr "0 0 0 0 000"]>
    (<["X-Bunq-Client-Request-Id" := JStr uuid]>
    (<["X-Bunq-Region" := JStr "en_US"]>
    (<["X-Bunq-Language" := JStr "en_US"]>
    (<["Cache-Control" := JStr "no-cache"]>
    (<["Content-Type" := JStr "application/json"]> ∅))))) in
  let headers :=
    if truthy authToken
    then <["X-Bunq-Client-Authentication" := authToken]> headers
    else headers in
  headers <-
    (if truthy (field config "privateKey") then
       signature <- lift (signRequest rt method endpoint body
                                      (field config "privateKey")) ;;
       ret (if truthy (JStr signature)
            then <["X-Bunq-Client-Signature" := JStr signature]> headers
            else headers)
     else ret headers) ;;
  axios rt {| req_method := method; req_url := baseUrl +:+ endpoint;
              req_data := body; req_headers := headers |}.

Definition bunqRequest (rt : Runtime) (method endpoint : string)
    (body token : value) : M value :=
  bunqRequest_body rt method endpoint (or_null body) (or_null token).

Definition bunqGet (rt : Runtime) (endpoint : string) : M value :=
  bunqRequest rt "GET" endpoint JNull JNull.

Definition bunqPost (rt : Runtime) (endpoint : string) (body token : value)
    : M value :=
  bunqRequest rt "POST" endpoint body (or_null token).

Definition bunqPut (rt : Runtime) (endpoint : string) (body : value) : M value :=
  bunqRequest rt "PUT" endpoint body JNull.

Definition bunqDelete (rt : Runtime) (endpoint : string) : M value :=
  bunqRequest rt "DELETE" endpoint JNull JNull.

(** ** The authentication commands *)

Definition generateKeyPairSync (rt : Runtime) : M (string * string) :=
  fun w => (Normal (rt_generateKeyPairSync rt (keypairs w)),
            {| store := store w; requests := requests w;
               keypairs := S (keypairs w); uuids := uuids w;
               console := console w |}).

(** Step 1 of [setupAuth]: a key pair is generated and stored. *)
Definition setupAuth_keypair (rt : Runtime) : M (string * string) :=
  emit (SpinnerText "Generating RSA key pair...") ;;;
  keys <- generateKeyPairSync rt ;;
  store_set "privateKey" (JStr (fst keys)) ;;;
  store_set "publicKey" (JStr (snd keys)) ;;;
  ret keys.

(** The body of the loop over the installation response; the loop's
    variables are [installationToken] and [serverPublicKey]. *)
Definition installation_item (acc : value * value) (item : value)
    : completion (value * value) :=
  let '(installationToken, serverPublicKey) := acc in
  cbind (prop item "Token") (fun Token =>
  cbind (if truthy Token then prop Token "token" else Normal installationToken)
        (fun installationToken =>
  cbind (prop item "ServerPublicKey") (fun ServerPublicKey =>
  cbind (if truthy ServerPublicKey
         then prop ServerPublicKey "server_public_key"
         else Normal serverPublicKey)
        (fun serverPublicKey =>
  Normal (installationToken, serverPublicKey))))).

Definition installation_scan (installationResp : value)
    : completion (value * value) :=
  cbind (prop installationResp "Response") (fun Response =>
  cbind (iterate "installationResp.Response" Response) (fun items =>
  for_of installation_item items (JNull, JNull))).

(** Step 2 of [setupAuth]: POST /installation; the installation token and
    the server's public key are taken from the response and stored. *)
Definition setupAuth_installation (rt : Runtime) (publicKey : string) : M value :=
  emit (SpinnerText "Registering installation with Bunq...") ;;;
  installationResp <-
    bunqPost rt "/installation"
             (JObj [("client_public_key", JStr publicKey)]) JNull ;;
  found <- lift (installation_scan installationResp) ;;
  let '(installationToken, serverPublicKey) := found in
  (if negb (truthy installationToken)
   then throw (Error_ "Failed to obtain installation token from response.")
   else ret tt) ;;;
  store_set "installationToken" installationToken ;;;
  (if truthy serverPublicKey
   then store_set "serverPublicKey" serverPublicKey
   else ret tt) ;;;
  ret installationToken.

(** Step 3 of [setupAuth]: POST /device-server. *)
Definition setupAuth_device (rt : Runtime) (config : gmap string value)
    (installationToken : value) : M unit :=
  emit (SpinnerText "Registering device server...") ;;;
  bunqPost rt "/device-server"
           (JObj [("description", JStr "bunq-cli");
                  ("secret", field config "apiKey");
                  ("permitted_ips", JArr [JStr "*"])])
           installationToken ;;;
  ret tt.

(** The body of the loop over the session response; the loop's variables
    are [sessionToken] and [userId]. *)
Definition session_item (acc : value * value) (item : value)
    : completion (value * value) :=
  let '(sessionToken, userId) := acc in
  cbind (prop item "Token") (fun Token =>
  cbind (if truthy Token then prop Token "token" else Normal sessionToken)
        (fun sessionToken =>
  cbind (prop item "UserPerson") (fun UserPerson =>
  cbind (if truthy UserPerson then
           cbind (prop UserPerson "id") (fun id => Normal (JStr (String_ id)))
         else
           cbind (prop item "UserCompany") (fun UserCompany =>
           if truthy UserCompany then
             cbind (prop UserCompany "id") (fun id => Normal (JStr (String_ id)))
           else
             cbind (prop item "UserApiKey") (fun UserApiKey =>
             if truthy UserApiKey then
               cbind (prop UserApiKey "id") (fun id => Normal (JStr (String_ id)))
             else Normal userId)))
        (fun userId =>
  Normal (sessionToken, userId))))).

Definition session_scan (sessionResp : value) : completion (value * value) :=
  cbind (prop sessionResp "Response") (fun Response =>
  cbind (iterate "sessionResp.Response" Response) (fun items =>
  for_of session_item items (JNull, JNull))).

(** Step 4 of [setupAuth]: POST /session-server; the session token and the
    user's identifier are taken from the response and stored. *)
Definition setupAuth_session (rt : Runtime) (config : gmap string value)
    (installationToken : value) : M value :=
  emit (SpinnerText "Creating session...") ;;;
  sessionResp <-
    bunqPost rt "/session-server" (JObj [("secret", field config "apiKey")])
             installationToken ;;
  found <- lift (session_scan sessionResp) ;;
  let '(sessionToken, userId) := found in
  (if negb (truthy sessionToken)
   then throw (Error_ "Failed to obtain session token from response.")
   else ret tt) ;;;
  store_set "sessionToken" sessionToken ;;;
  (if truthy userId then store_set "userId" userId else ret tt) ;;;
  ret userId.

Definition environment_name (config : gmap string value) : string :=
  if truthy (field config "sandbox") then "sandbox" else "production".

(** The [try] block of [setupAuth]. *)
Definition setupAuth_steps (rt : Runtime) (config : gmap string value) : M unit :=
  keys <- setupAuth_keypair rt ;;
  installationToken <- setupAuth_installation rt (snd keys) ;;
  setupAuth_device rt config installationToken ;;;
  userId <- setupAuth_session rt config installationToken ;;
  emit (SpinnerSucceed "Authentication successful!") ;;;
  info ("Environment: " +:+ environment_name config) ;;;
  (if truthy userId then info ("User ID: " +:+ String_ userId) else ret tt) ;;;
  info "Session token saved. You can now use all bunq commands.".

(** The [catch] block of [setupAuth]. *)
Definition setupAuth_failed (err : js_error) : M unit :=
  emit (SpinnerFail "Authentication failed.") ;;;
  handleError err.

Definition setupAuth (rt : Runtime) : M unit :=
  config <- getConfig ;;
  (if negb (truthy (field config "apiKey")) then
     error "No API key configured. Run: bunq config set --api-key <key>" ;;;
     process_exit 1
   else ret tt) ;;;
  emit (SpinnerStart "Setting up Bunq authentication...") ;;;
  try_catch (setupAuth_steps rt config) setupAuth_failed.

(** The [try] block of [refreshSession]. *)
Definition refreshSession_steps (rt : Runtime) (config : gmap string value)
    : M unit :=
  sessionResp <-
    bunqPost rt "/session-server" (JObj [("secret", field config "apiKey")])
             (field config "installationToken") ;;
  found <- lift (session_scan sessionResp) ;;
  let '(sessionToken, userId) := found in
  (if negb (truthy sessionToken)
   then throw (Error_ "Failed to obtain session token.")
   else ret tt) ;;;
  store_set "sessionToken" sessionToken ;;;
  (if truthy userId then store_set "userId" userId else ret tt) ;;;
  emit (SpinnerSucceed "Session refreshed successfully.").

(** The [catch] block of [refreshSession]. *)
Definition refreshSession_failed (err : js_error) : M unit :=
  emit (SpinnerFail "Session refresh failed.") ;;;
  handleError err.

Definition refreshSession (rt : Runtime) : M unit :=
  config <- getConfig ;;
  (if negb (truthy (field config "apiKey")) then
     error "No API key configured. Run: bunq config set --api-key <key>" ;;;
     process_exit 1
   else ret tt) ;;;
  if negb (truthy (field config "installationToken")) then
    info "No installation found. Running full setup..." ;;;
    setupAuth rt
  else
    emit (SpinnerStart "Refreshing session...") ;;;
    try_catch (refreshSession_steps rt config) refreshSession_failed.

(** ** The [config set] action *)

(** The options of [config set] as commander hands them over. *)
Record SetOptions : Type := {
  opt_apiKey : option string;
  opt_sandbox : bool;
  opt_production : bool
}.

Definition given (o : option string) : bool :=
  match o with
  | Some key => truthy (JStr key)
  | None => false
  end.

Definition config_set (opts : SetOptions) : M unit :=
  (if given (opt_apiKey opts) then
     store_set "apiKey" (JStr (default "" (opt_apiKey opts))) ;;;
     store_delete "sessionToken" ;;;
     store_delete "installationToken" ;;;
     store_delete "privateKey" ;;;
     store_delete "publicKey" ;;;
     store_delete "serverPublicKey" ;;;
     store_delete "userId" ;;;
     success "API key saved. Run 'bunq auth setup' to complete authentication."
   else ret tt) ;;;
  (if opt_sandbox opts then
     store_set "sandbox" (JBool true) ;;;
     success "Switched to sandbox environment."
   else ret tt) ;;;
  (if opt_production opts then
     store_set "sandbox" (JBool false) ;;;
     success "Switched to production environment."
   else ret tt) ;;;
  (if negb (given (opt_apiKey opts)) && negb (opt_sandbox opts)
      && negb (opt_production opts)
   then info "No options provided. Use --api-key <key>, --sandbox, or --production."
   else ret tt).

Definition config_clear : M unit :=
  store_clear ;;; success "Configuration cleared.".

(** ** The request that a dispatch sends *)

(** The token selection in the words of the specification: the explicit
    token if given, else the session token, else the installation token,
    else none. *)
Definition select_token (token : value) (config : gmap string value)
    : option value :=
  if truthy token then Some token
  else if truthy (field config "sessionToken")
       then Some (field config "sessionToken")
  else if truthy (field config "installationToken")
       then Some (field config "installationToken")
  else None.

(** The signature a dispatch attaches: that of the signer, when a private
    key is held and the signer produced a non-empty signature. *)
Definition attached_signature (rt : Runtime) (method endpoint : string)
    (body privateKey : value) : option value :=
  if truthy privateKey then
    match signRequest rt method endpoint body privateKey with
    | Normal signature =>
        if truthy (JStr signature) then Some (JStr signature) else None
    | _ => None
    end
  else None.

Definition base_url (rt : Runtime) (config : gmap string value) : string :=
  if truthy (field config "sandbox")
  then rt_sandboxUrl rt else rt_productionUrl rt.

Definition fixed_headers (uuid : string) : gmap string value :=
  <["X-Bunq-Geolocation" := JStr "0 0 0 0 000"]>
  (<["X-Bunq-Client-Request-Id" := JStr uuid]>
  (<["X-Bunq-Region" := JStr "en_US"]>
  (<["X-Bunq-Language" := JStr "en_US"]>
  (<["Cache-Control" := JStr "no-cache"]>
  (<["Content-Type" := JStr "application/json"]> ∅))))).

Definition with_header (name : string) (o : option value)
    (headers : gmap string value) : gmap string value :=
  match o with
  | Some v => <[name := v]> headers
  | None => headers
  end.

Definition dispatched (rt : Runtime) (method endpoint : string)
    (body token : value) (w : World) : Request :=
  {| req_method := method;
     req_url := base_url rt (store w) +:+ endpoint;
     req_data := or_null body;
     req_headers :=
       with_header "X-Bunq-Client-Signature"
         (attached_signature rt method endpoint body
                             (field (store w) "privateKey"))
         (with_header "X-Bunq-Client-Authentication"
            (select_token token (store w))
            (fixed_headers (rt_randomUUID rt (uuids w)))) |}.

(** The world after a dispatch: one more request, one more UUID. *)
Definition after_dispatch (r : Request) (w : World) : World :=
  {| store := store w; requests := requests w ++ [r]; keypairs := keypairs w;
     uuids := S (uuids w); console := console w |}.

Definition transport_outcome (rt : Runtime) (n : nat) (r : Request)
    : completion value :=
  match rt_axios rt n r with
  | inr data => Normal data
  | inl err => Throw err
  end.

(** The signing string in the words of the specification: the upper-cased
    method, a space, the version prefix followed by the path, two line
    feeds, the serialised body. *)
Definition api_version : string := "/v1".

Definition signing_string (METHOD path serialized : string) : string :=
  METHOD +:+ " " +:+ (api_version +:+ path) +:+ LF +:+ LF +:+ serialized.

(** ** Sample data *)

Definition envelope (items : list value) : value :=
  JObj [("Response", JArr items)].

Definition token_entry (token : string) : value :=
  JObj [("Token", JObj [("token", JStr token)])].

Definition server_key_entry (key : string) : value :=
  JObj [("ServerPublicKey", JObj [("server_public_key", JStr key)])].

Definition user_person_entry (id : Z) : value :=
  JObj [("UserPerson", JObj [("id", JNum id)])].

(** A runtime whose transport answers the [n]-th call with [answers n]; the
    [n]-th key pair and UUID are numbered, every signature succeeds. *)
Definition sample_runtime (answers : nat -> js_error + value) : Runtime :=
  {| rt_generateKeyPairSync n :=
       ("PRIVATE KEY " +:+ pretty n, "PUBLIC KEY " +:+ pretty n);
     rt_randomUUID n := "uuid-" +:+ pretty n;
     rt_sign key data := inr ("signed:" +:+ data);
     rt_axios n r := answers n;
     rt_sandboxUrl := "https://public-api.sandbox.bunq.com/v1";
     rt_productionUrl := "https://api.bunq.com/v1" |}.

(** The answers of a server that completes the handshake. *)
Definition handshake_answers (n : nat) : js_error + value :=
  match n with
  | 0 => inr (envelope [token_entry "T1"])
  | 1 => inr (envelope [])
  | _ => inr (envelope [token_entry "T2"; user_person_entry 42])
  end.

Definition world_of (st : gmap string value) : World :=
  {| store := st; requests := []; keypairs := 0; uuids := 0; console := [] |}.

(** A store that already holds a key pair. *)
Definition store_with_keys : gmap string value :=
  <["publicKey" := JStr "OLD PUBLIC KEY"]>
  (<["privateKey" := JStr "OLD PRIVATE KEY"]>
  (<["apiKey" := JStr "secret"]> ∅)).

(** A store with the secret and nothing else. *)
Definition store_with_secret : gmap string value :=
  <["apiKey" := JStr "secret"]> ∅.

(** A store with an installation token but without the secret. *)
Definition store_without_secret : gmap string value :=
  <["installationToken" := JStr "I1"]> ∅.

(** A store after an installation, with the secret. *)
Definition store_installed : gmap string value :=
  <["installationToken" := JStr "I1"]> store_with_secret.

(** The rejection of a call the server answered with 401. *)
Definition unauthorized : js_error :=
  AxiosError_ "Request failed with status code 401"
              (Some (401%Z, JObj [("Error", JArr [])])).

(** The answers of a server that completes the first [k] calls of the
    handshake and rejects the calls after them. *)
Definition answers_until (k n : nat) : js_error + value :=
  if (n <? k)%nat then handshake_answers n else inl unauthorized.

(** ** Response envelopes *)

(** The entries of a well-formed envelope are objects. *)
Definition is_object (v : value) : bool :=
  match v with
  | JObj _ => true
  | _ => false
  end.

(** [item] is an entry of the kind [name]: it has a key of that name. *)
Definition has_entry (name : string) (item : value) : bool :=
  match item with
  | JObj fields => existsb (fun kv => bool_decide (fst kv = name)) fields
  | _ => false
  end.

Definition no_entry (name : string) (items : list value) : bool :=
  forallb (fun item => negb (has_entry name item)) items.

(** ** The order of the handshake *)

Definition posted_to (rt : Runtime) (st : gmap string value) (endpoint : string)
    (r : Request) : Prop :=
  req_method r = "POST" ∧ req_url r = base_url rt st +:+ endpoint.

Definition authenticated_with (token : value) (r : Request) : Prop :=
  req_headers r !! "X-Bunq-Client-Authentication" = Some token.



(** The world after a failure was reported by [handleError]. *)
Definition reported (failure : string) (err : js_error) (w : World) : World :=
  log_event (ErrorLine (handleError_line err))
            (log_event (SpinnerFail failure) w).

(** ** What the handshake writes *)

(** The store after the key pair step, after the installation step and
    after the session step. *)
Definition keys_stored (keys : string * string) (st : gmap string value)
    : gmap string value :=
  <["publicKey" := JStr (snd keys)]> (<["privateKey" := JStr (fst keys)]> st).

Definition installation_stored (token key : value) (st : gmap string value)
    : gmap string value :=
  if truthy key
  then <["serverPublicKey" := key]> (<["installationToken" := token]> st)
  else <["installationToken" := token]> st.

Definition session_stored (token userId : value) (st : gmap string value)
    : gmap string value :=
  if truthy userId
  then <["userId" := userId]> (<["sessionToken" := token]> st)
  else <["sessionToken" := token]> st.

(** The fields the handshake may write. *)
Definition handshake_fields : list string :=
  ["privateKey"; "publicKey"; "installationToken"; "serverPublicKey";
   "sessionToken"; "userId"].

(** How the [try] block of [setupAuth] may end when it starts in [w]: with
    an exception of one of the three calls, or normally; each time with
    what the store holds and how many requests have been sent by then. *)
Inductive setup_outcome (rt : Runtime) (w : World)
    : completion unit -> World -> Prop :=
  | setup_installation_failed err w' :
      store w' = keys_stored (rt_generateKeyPairSync rt (keypairs w)) (store w) ->
      length (requests w') = length (requests w) + 1 ->
      setup_outcome rt w (Throw err) w'
  | setup_device_failed err w' token key :
      truthy token = true ->
      store w' = installation_stored token key
                   (keys_stored (rt_generateKeyPairSync rt (keypairs w)) (store w)) ->
      length (requests w') = length (requests w) + 2 ->
      setup_outcome rt w (Throw err) w'
  | setup_session_failed err w' token key :
      truthy token = true ->
      store w' = installation_stored token key
                   (keys_stored (rt_generateKeyPairSync rt (keypairs w)) (store w)) ->
      length (requests w') = length (requests w) + 3 ->
      setup_outcome rt w (Throw err) w'
  | setup_done w' token key sessionToken userId :
      truthy token = true ->
      truthy sessionToken = true ->
      store w' = session_stored sessionToken userId
                   (installation_stored token key
                      (keys_stored (rt_generateKeyPairSync rt (keypairs w))
                                   (store w))) ->
      length (requests w') = length (requests w) + 3 ->
      setup_outcome rt w (Normal tt) w'.

(** How the [try] block of [refreshSession] may end when it starts in [w]. *)
Inductive refresh_outcome (w : World) : completion unit -> World -> Prop :=
  | refresh_failed err w' :
      store w' = store w ->
      length (requests w') = length (requests w) + 1 ->
      refresh_outcome w (Throw err) w'
  | refresh_done w' sessionToken userId :
      truthy sessionToken = true ->
      store w' = session_stored sessionToken userId (store w) ->
      length (requests w') = length (requests w) + 1 ->
      refresh_outcome w (Normal tt) w'.

(** The installation call of a run of [setupAuth] that starts in [w]: it
    is dispatched once the new key pair is in the store. *)
Definition installation_call (rt : Runtime) (w : World) : Request :=
  let keys := rt_generateKeyPairSync rt (keypairs w) in
  dispatched rt "POST" "/installation"
             (JObj [("client_public_key", JStr (snd keys))]) JNull
             (update_store (keys_stored keys) w).

(** [item] is one of the three kinds of principal entries. *)
Definition has_principal (item : value) : bool :=
  has_entry "UserPerson" item || has_entry "UserCompany" item
  || has_entry "UserApiKey" item.

(** ** Printing key-value tables: [printKeyValue], [config get], [auth status] *)

(** The styles of chalk the output module uses; a printed line is a
    sequence of styled pieces. *)
Inductive Style : Type :=
  | Plain
  | Bold
  | BoldCyan
  | Cyan
  | Dim
  | Yellow.

Fixpoint repeat_string (s : string) (n : nat) : string :=
  match n with
  | 0 => ""
  | S n => s +:+ repeat_string s n
  end.

(** [s.padEnd(n)]. Here and below the lengths of strings ([.length],
    [padEnd], [repeat]) are counted in the characters of the model's
    strings. *)
Definition padEnd (s : string) (n : nat) : string :=
  s +:+ repeat_string " " (n - String.length s).

(** The horizontal bar the tables are ruled with. *)
Definition rule_char : string := "─".

Definition nullish (v : value) : bool :=
  match v with
  | JUndefined | JNull => true
  | _ => false
  end.

(** The lines [printKeyValue(obj, title)] prints, [obj] given by its
    entries in order. *)
Definition printKeyValue (obj : list (string * value)) (title : string)
    : list (list (Style * string)) :=
  (if truthy (JStr title)
   then [[(BoldCyan, LF +:+ title)];
         [(Cyan, repeat_string rule_char (String.length title))]]
   else [])
  ++ map (fun entry : string * value =>
            [(Bold, padEnd (fst entry) 24); (Plain, " ");
             if nullish (snd entry) then (Dim, "null")
             else (Plain, String_ (snd entry))])
         obj.

(** The replacement character U+FFFD, which is what a half of a surrogate
    pair is printed as. *)
Definition replacement_character : string :=
  String "239"%char (String "191"%char (String "189"%char EmptyString)).

(** The first [units] UTF-16 units of a string, which the model holds as
    UTF-8 bytes: a character of one, two or three bytes is one unit, a
    character of four bytes is two units (a surrogate pair); [pending]
    counts the bytes still to copy of the character being taken. A cut
    through a surrogate pair leaves its first half, which is printed as
    the replacement character. *)
Fixpoint slice_units (units pending : nat) (s : string) : string :=
  match s with
  | EmptyString => EmptyString
  | String c rest =>
      match pending with
      | S pending => String c (slice_units units pending rest)
      | 0 =>
          match units with
          | 0 => EmptyString
          | S units =>
              let n := nat_of_ascii c in
              if (n <? 192)%nat then String c (slice_units units 0 rest)
              else if (n <? 224)%nat then String c (slice_units units 1 rest)
              else if (n <? 240)%nat then String c (slice_units units 2 rest)
              else
                match units with
                | 0 => replacement_character
                | S units => String c (slice_units units 3 rest)
                end
          end
      end
  end.

(** [s.slice(0, n)] *)
Definition js_slice_0 (n : nat) (s : string) : string := slice_units n 0 s.

(** [v.slice(0, 8) + '...']: strings and arrays have a [slice]; on any
    other value the call throws. *)
Definition slice_0_8_dots (what : string) (v : value) : completion value :=
  match v with
  | JStr s => Normal (JStr (js_slice_0 8 s +:+ "..."))
  | JArr elems => Normal (JStr (String_ (JArr (take 8 elems)) +:+ "..."))
  | _ => Throw (TypeError_ (what +:+ ".slice is not a function"))
  end.

(** The object [config get] prints. *)
Definition config_get_details (cfg : gmap string value)
    : completion (list (string * value)) :=
  cbind (if truthy (field cfg "apiKey")
         then slice_0_8_dots "cfg.apiKey" (field cfg "apiKey")
         else Normal (JStr "(not set)")) (fun apiKey =>
  cbind (if truthy (field cfg "sessionToken")
         then slice_0_8_dots "cfg.sessionToken" (field cfg "sessionToken")
         else Normal (JStr "(not set)")) (fun sessionToken =>
  Normal [("API Key", apiKey);
          ("Environment",
           JStr (if truthy (field cfg "sandbox") then "sandbox" else "production"));
          ("Authenticated",
           JStr (if truthy (field cfg "sessionToken") then "yes" else "no"));
          ("User ID", js_or (field cfg "userId") (JStr "(not set)"));
          ("Session Token", sessionToken)])).

(** The action of [config get], as the lines it prints from the store. *)
Definition config_get (st : gmap string value)
    : completion (list (list (Style * string))) :=
  cbind (config_get_details st) (fun details =>
  Normal (printKeyValue details "Current Configuration")).

(** The object [auth status] prints. *)
Definition auth_status_details (rt : Runtime) (config : gmap string value)
    : list (string * value) :=
  [("API Key set", JStr (if truthy (field config "apiKey") then "yes" else "no"));
   ("Installation token",
    JStr (if truthy (field config "installationToken") then "yes" else "no"));
   ("Session token",
    JStr (if truthy (field config "sessionToken") then "yes" else "no"));
   ("User ID", js_or (field config "userId") (JStr "(not set)"));
   ("Environment",
    JStr (if truthy (field config "sandbox") then "sandbox" else "production"));
   ("Base URL", JStr (base_url rt config))].

(** The action of [auth status], as the lines it prints from the store. *)
Definition auth_status (rt : Runtime) (st : gmap string value)
    : list (list (Style * string)) :=
  printKeyValue (auth_status_details rt st) "Authentication Status".

(** ** Printing tables: [printTable] *)

(** A column of a table: its header and the function that reads its cell
    off a row. *)
Record Column : Type := {
  header : string;
  accessor : value -> completion value
}.

(** [String(col.accessor(row) || '')] *)
Definition cell_text (col : Column) (row : value) : completion string :=
  cbind (accessor col row) (fun v => Normal (String_ (js_or v (JStr "")))).

(** [rows.reduce((max, row) => Math.max(max, val.length), max)] for the
    column [col]. *)
Fixpoint reduce_width (col : Column) (rows : list value) (max : nat)
    : completion nat :=
  match rows with
  | [] => Normal max
  | row :: rest =>
      cbind (cell_text col row) (fun val =>
      reduce_width col rest (Nat.max max (String.length val)))
  end.

Definition column_width (rows : list value) (col : Column) : completion nat :=
  cbind (reduce_width col rows 0) (fun maxDataLen =>
  Normal (Nat.max (String.length (header col)) maxDataLen)).

(** [xs.map(f)] for an [f] that may throw. *)
Fixpoint map_throwing {A B} (f : A -> completion B) (xs : list A)
    : completion (list B) :=
  match xs with
  | [] => Normal []
  | x :: rest =>
      cbind (f x) (fun y =>
      cbind (map_throwing f rest) (fun ys => Normal (y :: ys)))
  end.

(** One row of the table: every cell padded to the width of its column,
    the cells joined by two spaces. *)
Definition row_line (columns : list Column) (widths : list nat) (row : value)
    : completion string :=
  cbind (map_throwing
           (fun cw : Column * nat =>
              cbind (cell_text (fst cw) row) (fun val =>
              Normal (padEnd val (snd cw))))
           (zip columns widths))
        (fun cells => Normal (join "  " cells)).

(** [rows.forEach(...)]: the lines printed so far and how the loop ends. *)
Fixpoint print_rows (columns : list Column) (widths : list nat)
    (rows : list value) (printed : list (list (Style * string)))
    : list (list (Style * string)) * completion unit :=
  match rows with
  | [] => (printed, Normal tt)
  | row :: rest =>
      match row_line columns widths row with
      | Normal line =>
          print_rows columns widths rest (printed ++ [[(Plain, line)]])
      | Throw err => (printed, Throw err)
      | Exit code => (printed, Exit code)
      end
  end.

(** [rows.length === 0] *)
Definition length_is_zero (rows : value) : bool :=
  match rows with
  | JArr [] => true
  | JObj fields =>
      match lookup_field "length" fields with
      | JNum 0 => true
      | _ => false
      end
  | _ => false
  end.

Definition header_line (columns : list Column) (widths : list nat) : string :=
  join "  " (map (fun cw : Column * nat => padEnd (header (fst cw)) (snd cw))
                 (zip columns widths)).

(** [printTable(rows, columns)]: the lines it prints and how it ends. Only
    an array has the [reduce] and [forEach] the function calls. *)
Definition printTable (rows : value) (columns : list Column)
    : list (list (Style * string)) * completion unit :=
  if negb (truthy rows) || length_is_zero rows then
    ([[(Yellow, "No results found.")]], Normal tt)
  else
    match rows with
    | JArr rows =>
        match map_throwing (column_width rows) columns with
        | Normal widths =>
            print_rows columns widths rows
              [[(BoldCyan, header_line columns widths)];
               [(Cyan, repeat_string rule_char
                         (String.length (header_line columns widths)))]]
        | Throw err => ([], Throw err)
        | Exit code => ([], Exit code)
        end
    | _ =>
        match columns with
        | [] =>
            ([[(BoldCyan, "")]; [(Cyan, "")]],
             Throw (TypeError_ "rows.forEach is not a function"))
        | _ => ([], Throw (TypeError_ "rows.reduce is not a function"))
        end
    end.

(** A table of two columns over rows with an [id] and a [name]. *)
Definition sample_columns : list Column :=
  [{| header := "ID"; accessor := fun r => prop r "id" |};
   {| header := "Name";
      accessor := fun r => cbind (prop r "name") (fun n =>
                           Normal (js_or n (JStr ""))) |}].

Definition sample_rows : list value :=
  [JObj [("id", JNum 7); ("name", JStr "Alice")];
   JObj [("id", JNum 1234); ("name", JNull)]].

(** ** What a failure shows *)

(** The line a failure is reported with: the status and the serialised
    data of the response when the error carries one; else the message of
    the error when it has one; else a fixed text. *)
Inductive error_line : js_error -> string -> Prop :=
  | line_of_response message status data :
      error_line (AxiosError_ message (Some (status, data)))
                 ("HTTP " +:+ pretty status +:+ ": "
                  +:+ template (JSON_stringify data))
  | line_of_message err :
      err_response err = None ->
      err_message err <> "" ->
      error_line err (err_message err)
  | line_unknown err :
      err_response err = None ->
      err_message err = "" ->
      error_line err "An unknown error occurred.".

(** A runtime whose transport rejects every call with [err]. *)
Definition rejecting_runtime (err : js_error) : Runtime :=
  sample_runtime (fun _ => inl err).

(** ** Properties of the signer and of the dispatcher *)

Lemma createSign_sign_no_exit rt key data code :
  createSign_sign rt key data ≠ Exit code.
Proof.
  unfold createSign_sign.
  destruct (truthy key); [destruct (rt_sign rt key data)|]; discriminate.
Qed.

Lemma signRequest_returns rt method endpoint body key :
  signRequest rt method endpoint body key =
    Normal (match createSign_sign rt key (dataToSign method endpoint body) with
            | Normal signature => signature
            | _ => ""
            end).
Proof.
  unfold signRequest.
  destruct (createSign_sign rt key _) as [s|e|code] eqn:E; try done.
  by apply createSign_sign_no_exit in E.
Qed.

Lemma bunqRequest_body_run rt method endpoint body token w :
  or_null body = body →
  bunqRequest_body rt method endpoint body token w =
    (transport_outcome rt (length (requests w))
                       (dispatched rt method endpoint body token w),
     after_dispatch (dispatched rt method endpoint body token w) w).
Proof.
  intros Hbody.
  unfold bunqRequest_body, bind, getConfig, getBaseUrl, randomUUID, axios, lift,
    ret, dispatched, after_dispatch, transport_outcome, attached_signature,
    select_token, js_or, base_url, fixed_headers, with_header.
  rewrite Hbody. simpl. rewrite !signRequest_returns.
  destruct (truthy token) eqn:Ht; simpl; rewrite ?Ht;
    destruct (truthy (field (store w) "sessionToken")) eqn:Hs; simpl; rewrite ?Hs;
    destruct (truthy (field (store w) "installationToken")) eqn:Hi; simpl;
    rewrite ?Hi;
    destruct (truthy (field (store w) "privateKey")) eqn:Hk; simpl;
    try (destruct (createSign_sign rt _ _) as [sg|?|?]; simpl;
         try destruct (bool_decide (sg = "")); simpl);
    match goal with
    | |- context [rt_axios ?a ?b ?c] => destruct (rt_axios a b c)
    end; reflexivity.
Qed.

Lemma dispatched_or_null rt method endpoint body token w :
  dispatched rt method endpoint (or_null body) (or_null token) w
    = dispatched rt method endpoint body token w.
Proof. destruct body, token; reflexivity. Qed.

Lemma bunqRequest_run rt method endpoint body token w :
  bunqRequest rt method endpoint body token w =
    (transport_outcome rt (length (requests w))
                       (dispatched rt method endpoint body token w),
     after_dispatch (dispatched rt method endpoint body token w) w).
Proof.
  unfold bunqRequest. rewrite bunqRequest_body_run by (by destruct body).
  by rewrite dispatched_or_null.
Qed.

Lemma bunqPost_run rt endpoint body token w :
  bunqPost rt endpoint body token w =
    (transport_outcome rt (length (requests w))
                       (dispatched rt "POST" endpoint body token w),
     after_dispatch (dispatched rt "POST" endpoint body token w) w).
Proof.
  unfold bunqPost. rewrite bunqRequest_run. by destruct token.
Qed.

(** C6, as the code has it. The string that is signed is the upper-cased
    method, one space, the prefix "/v1" followed by the path, two line feeds
    and then the serialised body when the body is truthy, nothing when it
    is not ([null], [undefined], [0], [false] or the empty string). With a
    private key and a signing that succeeds, [signRequest] returns the
    signature of exactly that string; without a key, or when signing
    throws, it returns the empty signature; it never throws. *)
Theorem signRequest_signing_string rt method path body privateKey :
  (truthy body = true →
     ∃ serialized,
       JSON_stringify body = Some serialized
       ∧ dataToSign method path body
         = signing_string (toUpperCase method) path serialized)
  ∧ (truthy body = false →
       dataToSign method path body
         = signing_string (toUpperCase method) path "")
  ∧ (∀ signature,
       truthy privateKey = true →
       rt_sign rt privateKey (dataToSign method path body) = inr signature →
       signRequest rt method path body privateKey = Normal signature)
  ∧ (∃ signature,
       signRequest rt method path body privateKey = Normal signature)
  ∧ (truthy privateKey = false →
       signRequest rt method path body privateKey = Normal "")
  ∧ (∀ err, rt_sign rt privateKey (dataToSign method path body) = inl err →
       signRequest rt method path body privateKey = Normal "").
Proof.
  split; [|split; [|split; [|split; [|split]]]].
  - intros Hbody. unfold dataToSign. rewrite Hbody.
    destruct (JSON_stringify body) as [serialized|] eqn:Hjson.
    + by exists serialized.
    + destruct body as [| |[]| | | |]; discriminate.
  - intros Hbody. unfold dataToSign. by rewrite Hbody.
  - intros signature Hkey Hsigned. rewrite signRequest_returns.
    unfold createSign_sign. by rewrite Hkey, Hsigned.
  - rewrite signRequest_returns. eauto.
  - intros Hkey. rewrite signRequest_returns.
    unfold createSign_sign. by rewrite Hkey.
  - intros err Herr. rewrite signRequest_returns.
    unfold createSign_sign. rewrite Herr. by destruct (truthy privateKey).
Qed.

Lemma signRequest_signing_string_witness :
  (∃ serialized,
     JSON_stringify (JObj [("secret", JStr "k")]) = Some serialized
     ∧ dataToSign "post" "/session-server" (JObj [("secret", JStr "k")])
       = signing_string "POST" "/session-server" serialized)
  ∧ dataToSign "get" "/user" JNull = signing_string "GET" "/user" ""
  ∧ signRequest (sample_runtime handshake_answers) "get" "/user" JNull
                (JStr "PRIVATE KEY 0")
    = Normal ("signed:" +:+ signing_string "GET" "/user" "")
  ∧ signRequest (sample_runtime handshake_answers) "post" "/installation"
                JNull JUndefined = Normal "".
Proof.
  split; [|split; [|split]].
  - exact (proj1 (signRequest_signing_string (sample_runtime handshake_answers)
                    "post" "/session-server" (JObj [("secret", JStr "k")])
                    JUndefined) eq_refl).
  - exact (proj1 (proj2 (signRequest_signing_string
                           (sample_runtime handshake_answers)
                           "get" "/user" JNull JUndefined)) eq_refl).
  - exact (proj1 (proj2 (proj2 (signRequest_signing_string
                                  (sample_runtime handshake_answers)
                                  "get" "/user" JNull (JStr "PRIVATE KEY 0"))))
             _ eq_refl eq_refl).
  - exact (proj1 (proj2 (proj2 (proj2 (proj2
             (signRequest_signing_string (sample_runtime handshake_answers)
                "post" "/installation" JNull JUndefined))))) eq_refl).
Defined.

(** C6, as the specification has it, fails for a body that is given but
    falsy: the body [0] is serialised as "0", and yet the string that is
    signed ends after the two line feeds. *)
Lemma dataToSign_falsy_body_not_serialized :
  JSON_stringify (JNum 0) = Some "0"
  ∧ dataToSign "put" "/x" (JNum 0) = signing_string "PUT" "/x" ""
  ∧ dataToSign "put" "/x" (JNum 0) ≠ signing_string "PUT" "/x" "0".
Proof. repeat split; vm_compute; discriminate. Qed.

(** C7. The request a dispatch sends carries as authentication token the
    explicit token if one is given, else the stored session token, else the
    stored installation token, and no authentication header otherwise. *)
Theorem bunqRequest_token_precedence rt method endpoint body token w :
  ∃ r, requests (snd (bunqRequest rt method endpoint body token w))
         = requests w ++ [r]
       ∧ req_headers r !! "X-Bunq-Client-Authentication"
         = select_token token (store w).
Proof.
  rewrite bunqRequest_run. eexists. split; [reflexivity|].
  unfold dispatched, with_header, fixed_headers. simpl.
  destruct (attached_signature _ _ _ _ _);
    destruct (select_token token (store w)); by simplify_map_eq.
Qed.

(** C8. A dispatch sends exactly one request whatever the signer does, and
    its result is that of the transport; the request carries a signature
    header exactly when a private key is held and the signer produced a
    non-empty signature, so that without a key, or when signing throws, the
    request goes out unsigned. *)
Theorem bunqRequest_signature_best_effort rt method endpoint body token w :
  let privateKey := field (store w) "privateKey" in
  ∃ r, bunqRequest rt method endpoint body token w
         = (transport_outcome rt (length (requests w)) r, after_dispatch r w)
       ∧ req_headers r !! "X-Bunq-Client-Signature"
         = attached_signature rt method endpoint body privateKey
       ∧ (truthy privateKey = false →
            req_headers r !! "X-Bunq-Client-Signature" = None)
       ∧ (∀ err,
            rt_sign rt privateKey (dataToSign method endpoint body) = inl err →
            req_headers r !! "X-Bunq-Client-Signature" = None).
Proof.
  intros privateKey. rewrite bunqRequest_run. eexists. split; [reflexivity|].
  assert (req_headers (dispatched rt method endpoint body token w)
            !! "X-Bunq-Client-Signature"
          = attached_signature rt method endpoint body privateKey) as Hsig.
  { unfold dispatched, with_header, fixed_headers. simpl. fold privateKey.
    destruct (attached_signature _ _ _ _ _);
      destruct (select_token token (store w)); by simplify_map_eq. }
  rewrite Hsig. split; [reflexivity|]. unfold attached_signature. split.
  - by intros ->.
  - intros err Herr. rewrite signRequest_returns. unfold createSign_sign.
    rewrite Herr. by destruct (truthy privateKey).
Qed.

Lemma bunqRequest_signature_best_effort_witness :
  ∃ r, bunqRequest (sample_runtime handshake_answers) "POST" "/installation"
                   JNull JNull (world_of ∅)
         = (Normal (envelope [token_entry "T1"]), after_dispatch r (world_of ∅))
       ∧ req_headers r !! "X-Bunq-Client-Signature" = None.
Proof.
  destruct (bunqRequest_signature_best_effort (sample_runtime handshake_answers)
              "POST" "/installation" JNull JNull (world_of ∅))
    as (r & Hrun & _ & Hnone & _).
  exists r. split; [exact Hrun | exact (Hnone eq_refl)].
Defined.

(** C10. A dispatch leaves the credential store as it found it, whether the
    call succeeds or fails. *)
Theorem bunqRequest_preserves_store rt method endpoint body token w :
  store (snd (bunqRequest rt method endpoint body token w)) = store w.
Proof. by rewrite bunqRequest_run. Qed.

(** ** Secret rotation *)

(** C4. After [config set --api-key key] the store holds the new key and
    none of the installation token, the session token, the key pair, the
    server's public key and the user identifier, whatever it held before
    and whatever the other options are. *)
Theorem config_set_rotation opts w key :
  opt_apiKey opts = Some key → key ≠ "" →
  let st := store (snd (config_set opts w)) in
  st !! "apiKey" = Some (JStr key)
  ∧ st !! "installationToken" = None
  ∧ st !! "sessionToken" = None
  ∧ st !! "privateKey" = None
  ∧ st !! "publicKey" = None
  ∧ st !! "serverPublicKey" = None
  ∧ st !! "userId" = None.
Proof.
  intros Hkey Hne. unfold config_set, given. rewrite Hkey. simpl.
  rewrite bool_decide_eq_false_2 by done. simpl.
  destruct (opt_sandbox opts), (opt_production opts); simpl;
    repeat split; by simplify_map_eq.
Qed.

Lemma config_set_rotation_witness :
  let st := store (snd (config_set
                          {| opt_apiKey := Some "new secret";
                             opt_sandbox := true; opt_production := false |}
                          (world_of store_with_keys))) in
  st !! "apiKey" = Some (JStr "new secret")
  ∧ st !! "installationToken" = None
  ∧ st !! "sessionToken" = None
  ∧ st !! "privateKey" = None
  ∧ st !! "publicKey" = None
  ∧ st !! "serverPublicKey" = None
  ∧ st !! "userId" = None.
Proof.
  apply (config_set_rotation
           {| opt_apiKey := Some "new secret";
              opt_sandbox := true; opt_production := false |}
           (world_of store_with_keys) "new secret");
    [reflexivity | discriminate].
Defined.

(** ** The key pair *)

Lemma setupAuth_keypair_run rt w :
  setupAuth_keypair rt w =
    (Normal (rt_generateKeyPairSync rt (keypairs w)),
     {| store := <["publicKey" := JStr (snd (rt_generateKeyPairSync rt (keypairs w)))]>
                 (<["privateKey" := JStr (fst (rt_generateKeyPairSync rt (keypairs w)))]>
                  (store w));
        requests := requests w;
        keypairs := S (keypairs w);
        uuids := uuids w;
        console := console w ++ [SpinnerText "Generating RSA key pair..."] |}).
Proof. reflexivity. Qed.

(** C2, as the code has it. The key pair step draws a new key pair every
    time it runs and overwrites the stored one: it returns the pair the
    generator hands out, and afterwards the store holds that pair, whatever
    it held before. *)
Theorem setupAuth_keypair_regenerates rt w :
  let keys := rt_generateKeyPairSync rt (keypairs w) in
  let w' := snd (setupAuth_keypair rt w) in
  fst (setupAuth_keypair rt w) = Normal keys
  ∧ store w' !! "privateKey" = Some (JStr (fst keys))
  ∧ store w' !! "publicKey" = Some (JStr (snd keys))
  ∧ keypairs w' = S (keypairs w)
  ∧ (∀ k, k ≠ "privateKey" → k ≠ "publicKey" → store w' !! k = store w !! k).
Proof.
  rewrite setupAuth_keypair_run. simpl. repeat split; try by simplify_map_eq.
  intros k H1 H2. by simplify_map_eq.
Qed.

(** C2, as the specification has it, fails: with a key pair in the store
    the step returns another pair and replaces the stored one, and a second
    run yields yet another pair. *)
Lemma setupAuth_keypair_not_idempotent :
  fst (setupAuth_keypair (sample_runtime handshake_answers)
                         (world_of store_with_keys))
    ≠ Normal ("OLD PRIVATE KEY", "OLD PUBLIC KEY")
  ∧ store (snd (setupAuth_keypair (sample_runtime handshake_answers)
                                  (world_of store_with_keys))) !! "privateKey"
    ≠ store_with_keys !! "privateKey"
  ∧ fst (setupAuth_keypair (sample_runtime handshake_answers)
           (snd (setupAuth_keypair (sample_runtime handshake_answers)
                                   (world_of store_with_keys))))
    ≠ fst (setupAuth_keypair (sample_runtime handshake_answers)
                             (world_of store_with_keys)).
Proof. repeat split; vm_compute; discriminate. Qed.

(** ** The installation step *)

Lemma lookup_field_absent name fields :
  existsb (fun kv : string * value => bool_decide (fst kv = name)) fields = false →
  lookup_field name fields = JUndefined.
Proof.
  induction fields as [|[k v] fields IH]; simpl; [done|].
  destruct (bool_decide (k = name)); simpl; [done | exact IH].
Qed.

Lemma prop_truthy v k : truthy v = true → ∃ v', prop v k = Normal v'.
Proof. destruct v; simpl; intros; try discriminate; eauto. Qed.



Lemma setupAuth_installation_run rt publicKey w :
  let w1 := log_event (SpinnerText "Registering installation with Bunq...") w in
  let r := dispatched rt "POST" "/installation"
             (JObj [("client_public_key", JStr publicKey)]) JNull w1 in
  let w2 := after_dispatch r w1 in
  setupAuth_installation rt publicKey w =
    match rt_axios rt (length (requests w)) r with
    | inl err => (Throw err, w2)
    | inr installationResp =>
        match installation_scan installationResp with
        | Normal (installationToken, serverPublicKey) =>
            if truthy installationToken then
              (Normal installationToken,
               update_store
                 (fun st => if truthy serverPublicKey
                            then <["serverPublicKey" := serverPublicKey]>
                                   (<["installationToken" := installationToken]> st)
                            else <["installationToken" := installationToken]> st)
                 w2)
            else
              (Throw (Error_ "Failed to obtain installation token from response."),
               w2)
        | Throw err => (Throw err, w2)
        | Exit code => (Exit code, w2)
        end
    end.
Proof.
  unfold setupAuth_installation, bind, emit.
  rewrite bunqPost_run. unfold transport_outcome. simpl.
  destruct (rt_axios rt _ _) as [err|resp]; [reflexivity|].
  unfold lift. destruct (installation_scan resp) as [[tok key]|err|code];
    try reflexivity.
  destruct (truthy tok); [|reflexivity].
  destruct (truthy key); reflexivity.
Qed.


(** ** The steps of the handshake, one by one *)

Lemma base_url_sandbox rt (st st' : gmap string value) :
  st' !! "sandbox" = st !! "sandbox" → base_url rt st' = base_url rt st.
Proof. unfold base_url, field. by intros ->. Qed.

Lemma dispatched_authentication rt method endpoint body token w :
  req_headers (dispatched rt method endpoint body token w)
    !! "X-Bunq-Client-Authentication" = select_token token (store w).
Proof.
  unfold dispatched, with_header, fixed_headers. simpl.
  destruct (attached_signature _ _ _ _ _);
    destruct (select_token token (store w)); by simplify_map_eq.
Qed.

Lemma select_token_explicit token config :
  truthy token = true → select_token token config = Some token.
Proof. unfold select_token. by intros ->. Qed.

Lemma setupAuth_device_run rt config installationToken w :
  let w1 := log_event (SpinnerText "Registering device server...") w in
  let r := dispatched rt "POST" "/device-server"
             (JObj [("description", JStr "bunq-cli");
                    ("secret", field config "apiKey");
                    ("permitted_ips", JArr [JStr "*"])])
             installationToken w1 in
  setupAuth_device rt config installationToken w =
    (match rt_axios rt (length (requests w)) r with
     | inl err => Throw err
     | inr _ => Normal tt
     end, after_dispatch r w1).
Proof.
  unfold setupAuth_device, bind, emit.
  rewrite bunqPost_run. unfold transport_outcome. simpl.
  destruct (rt_axios rt _ _); reflexivity.
Qed.

Lemma setupAuth_session_run rt config installationToken w :
  let w1 := log_event (SpinnerText "Creating session...") w in
  let r := dispatched rt "POST" "/session-server"
             (JObj [("secret", field config "apiKey")]) installationToken w1 in
  let w2 := after_dispatch r w1 in
  setupAuth_session rt config installationToken w =
    match rt_axios rt (length (requests w)) r with
    | inl err => (Throw err, w2)
    | inr sessionResp =>
        match session_scan sessionResp with
        | Normal (sessionToken, userId) =>
            if truthy sessionToken then
              (Normal userId,
               update_store
                 (fun st => if truthy userId
                            then <["userId" := userId]>
                                   (<["sessionToken" := sessionToken]> st)
                            else <["sessionToken" := sessionToken]> st)
                 w2)
            else
              (Throw (Error_ "Failed to obtain session token from response."), w2)
        | Throw err => (Throw err, w2)
        | Exit code => (Exit code, w2)
        end
    end.
Proof.
  unfold setupAuth_session, bind, emit.
  rewrite bunqPost_run. unfold transport_outcome. simpl.
  destruct (rt_axios rt _ _) as [err|resp]; [reflexivity|].
  unfold lift. destruct (session_scan resp) as [[tok uid]|err|code];
    try reflexivity.
  destruct (truthy tok); [|reflexivity].
  destruct (truthy uid); reflexivity.
Qed.

(** What each step does to the list of requests and to the environment
    selector, and what a normal end of the installation step tells. *)
Lemma setupAuth_installation_effect rt publicKey w :
  let run := setupAuth_installation rt publicKey w in
  ∃ i, requests (snd run) = requests w ++ [i]
       ∧ posted_to rt (store w) "/installation" i
       ∧ store (snd run) !! "sandbox" = store w !! "sandbox"
       ∧ (∀ token, fst run = Normal token →
            truthy token = true
            ∧ ∃ resp key, rt_axios rt (length (requests w)) i = inr resp
                          ∧ installation_scan resp = Normal (token, key)).
Proof.
  intros run. subst run. rewrite setupAuth_installation_run. simpl.
  exists (dispatched rt "POST" "/installation"
            (JObj [("client_public_key", JStr publicKey)]) JNull
            (log_event (SpinnerText "Registering installation with Bunq...") w)).
  split; [|split; [done|]].
  - destruct (rt_axios rt _ _) as [err|resp]; [reflexivity|].
    destruct (installation_scan resp) as [[tok key]|err|code]; try reflexivity.
    destruct (truthy tok); reflexivity.
  - destruct (rt_axios rt _ _) as [err|resp]; [by split|].
    destruct (installation_scan resp) as [[tok key]|err|code] eqn:Hscan;
      [|by split..].
    destruct (truthy tok) eqn:Ht; [|by split]. simpl. split.
    + destruct (truthy key); by simplify_map_eq.
    + intros token [= <-]. eauto.
Qed.

Lemma setupAuth_device_effect rt config token w :
  let run := setupAuth_device rt config token w in
  ∃ d, requests (snd run) = requests w ++ [d]
       ∧ posted_to rt (store w) "/device-server" d
       ∧ (truthy token = true → authenticated_with token d)
       ∧ store (snd run) = store w.
Proof.
  intros run. subst run. rewrite setupAuth_device_run. simpl.
  eexists. split; [reflexivity|]. split; [done|]. split; [|done].
  intros Ht. unfold authenticated_with.
  by rewrite dispatched_authentication, select_token_explicit.
Qed.

Lemma setupAuth_session_effect rt config token w :
  let run := setupAuth_session rt config token w in
  ∃ s, requests (snd run) = requests w ++ [s]
       ∧ posted_to rt (store w) "/session-server" s
       ∧ (truthy token = true → authenticated_with token s).
Proof.
  intros run. subst run. rewrite setupAuth_session_run. simpl.
  exists (dispatched rt "POST" "/session-server"
            (JObj [("secret", field config "apiKey")]) token
            (log_event (SpinnerText "Creating session...") w)).
  split; [|split; [done|]].
  - destruct (rt_axios rt _ _) as [err|resp]; [reflexivity|].
    destruct (session_scan resp) as [[tok uid]|err|code]; try reflexivity.
    destruct (truthy tok); reflexivity.
  - intros Ht. unfold authenticated_with.
    by rewrite dispatched_authentication, select_token_explicit.
Qed.

(** ** The commands as a whole *)

Lemma setupAuth_without_key rt w :
  truthy (field (store w) "apiKey") = false →
  setupAuth rt w =
    (Exit 1,
     log_event
       (ErrorLine "No API key configured. Run: bunq config set --api-key <key>") w).
Proof.
  intros Hkey. unfold setupAuth, bind, getConfig. simpl. by rewrite Hkey.
Qed.

Lemma setupAuth_with_key rt w :
  truthy (field (store w) "apiKey") = true →
  setupAuth rt w =
    try_catch (setupAuth_steps rt (store w)) setupAuth_failed
              (log_event (SpinnerStart "Setting up Bunq authentication...") w).
Proof.
  intros Hkey. unfold setupAuth, bind, getConfig. simpl. by rewrite Hkey.
Qed.

Lemma setupAuth_failed_run err w :
  setupAuth_failed err w = (Exit 1, reported "Authentication failed." err w).
Proof. reflexivity. Qed.

Lemma refreshSession_failed_run err w :
  refreshSession_failed err w
    = (Exit 1, reported "Session refresh failed." err w).
Proof. reflexivity. Qed.

Lemma try_catch_reported {A} failure (body : M A)
    (handler : js_error -> M A) w :
  (∀ err w', handler err w' = (Exit 1, reported failure err w')) →
  requests (snd (try_catch body handler w)) = requests (snd (body w))
  ∧ store (snd (try_catch body handler w)) = store (snd (body w)).
Proof.
  intros Hhandler. unfold try_catch.
  destruct (body w) as [[a|err|code] w']; try done.
  by rewrite Hhandler.
Qed.


Lemma refreshSession_without_key rt w :
  truthy (field (store w) "apiKey") = false →
  refreshSession rt w =
    (Exit 1,
     log_event
       (ErrorLine "No API key configured. Run: bunq config set --api-key <key>") w).
Proof.
  intros Hkey. unfold refreshSession, bind, getConfig. simpl. by rewrite Hkey.
Qed.

Lemma refreshSession_delegates rt w :
  truthy (field (store w) "apiKey") = true →
  truthy (field (store w) "installationToken") = false →
  refreshSession rt w =
    setupAuth rt (log_event (InfoLine "No installation found. Running full setup...") w).
Proof.
  intros Hkey Hinst. unfold refreshSession, bind, getConfig, info. simpl.
  by rewrite Hkey, Hinst.
Qed.

Lemma refreshSession_with_installation rt w :
  truthy (field (store w) "apiKey") = true →
  truthy (field (store w) "installationToken") = true →
  refreshSession rt w =
    try_catch (refreshSession_steps rt (store w)) refreshSession_failed
              (log_event (SpinnerStart "Refreshing session...") w).
Proof.
  intros Hkey Hinst. unfold refreshSession, bind, getConfig. simpl.
  by rewrite Hkey, Hinst.
Qed.

Lemma refreshSession_steps_effect rt config w :
  ∃ s, requests (snd (refreshSession_steps rt config w)) = requests w ++ [s]
       ∧ posted_to rt (store w) "/session-server" s
       ∧ (truthy (field config "installationToken") = true →
            authenticated_with (field config "installationToken") s).
Proof.
  exists (dispatched rt "POST" "/session-server"
            (JObj [("secret", field config "apiKey")])
            (field config "installationToken") w).
  split; [|split; [done|]].
  - unfold refreshSession_steps, bind. rewrite bunqPost_run.
    unfold transport_outcome. destruct (rt_axios rt _ _) as [err|resp];
      [reflexivity|].
    unfold lift. destruct (session_scan resp) as [[tok uid]|err|code];
      try reflexivity.
    simpl. destruct (truthy tok); [|reflexivity]. simpl.
    destruct (truthy uid); reflexivity.
  - intros Ht. unfold authenticated_with.
    by rewrite dispatched_authentication, select_token_explicit.
Qed.





(** C5, as the code has it. With an API key in the store:
    [refreshSession] without a stored installation token announces the
    full setup and runs [setupAuth]; with a stored installation token it
    sends exactly one request, a POST to the session endpoint authenticated
    with that token. Without an API key it reports the missing key and ends
    with status 1, without any request, exactly as [setupAuth] does. *)
Theorem refreshSession_shortcut rt w :
  (truthy (field (store w) "apiKey") = true →
     (truthy (field (store w) "installationToken") = false →
        refreshSession rt w =
          setupAuth rt
            (log_event (InfoLine "No installation found. Running full setup...") w))
     ∧ (truthy (field (store w) "installationToken") = true →
          ∃ s, requests (snd (refreshSession rt w)) = requests w ++ [s]
               ∧ posted_to rt (store w) "/session-server" s
               ∧ authenticated_with (field (store w) "installationToken") s))
  ∧ (truthy (field (store w) "apiKey") = false →
       fst (refreshSession rt w) = Exit 1
       ∧ requests (snd (refreshSession rt w)) = requests w
       ∧ refreshSession rt w = setupAuth rt w).
Proof.
  split.
  - intros Hkey. split; intros Hinst.
    + by apply refreshSession_delegates.
    + rewrite (refreshSession_with_installation rt w Hkey Hinst).
      destruct (try_catch_reported "Session refresh failed."
                  (refreshSession_steps rt (store w)) refreshSession_failed
                  (log_event (SpinnerStart "Refreshing session...") w)
                  refreshSession_failed_run) as [-> _].
      destruct (refreshSession_steps_effect rt (store w)
                  (log_event (SpinnerStart "Refreshing session...") w))
        as (s & Hreq & Hpost & Hauth).
      exists s. auto.
  - intros Hkey.
    by rewrite (refreshSession_without_key rt w Hkey),
         (setupAuth_without_key rt w Hkey).
Qed.

Lemma refreshSession_shortcut_witness :
  ∃ s, requests (snd (refreshSession (sample_runtime handshake_answers)
                                     (world_of store_installed))) = [s]
       ∧ posted_to (sample_runtime handshake_answers) store_installed
                   "/session-server" s
       ∧ authenticated_with (JStr "I1") s.
Proof.
  exact (proj2 (proj1 (refreshSession_shortcut
                         (sample_runtime handshake_answers)
                         (world_of store_installed)) eq_refl) eq_refl).
Defined.

(** C5, as the specification has it, fails for a store without the secret:
    an installation token is there, and yet no request is sent. *)
Lemma refreshSession_without_secret_sends_nothing :
  truthy (field store_without_secret "installationToken") = true
  ∧ ¬ ∃ s, requests (snd (refreshSession (sample_runtime handshake_answers)
                                         (world_of store_without_secret)))
           = requests (world_of store_without_secret) ++ [s].
Proof.
  split; [reflexivity|]. intros [s Hs]. vm_compute in Hs. discriminate.
Qed.

(** ** The full setup, end to end *)

Lemma setupAuth_installation_answered rt publicKey w resp token key :
  (∀ r, rt_axios rt (length (requests w)) r = inr resp) →
  installation_scan resp = Normal (token, key) →
  truthy token = true →
  ∃ w', setupAuth_installation rt publicKey w = (Normal token, w')
        ∧ length (requests w') = S (length (requests w))
        ∧ store w' = if truthy key
                     then <["serverPublicKey" := key]>
                            (<["installationToken" := token]> (store w))
                     else <["installationToken" := token]> (store w).
Proof.
  intros Hanswer Hscan Htoken. rewrite setupAuth_installation_run. simpl.
  rewrite Hanswer, Hscan, Htoken. eexists. split; [reflexivity|].
  simpl. rewrite length_app. simpl. split; [lia|]. by destruct (truthy key).
Qed.

Lemma setupAuth_device_answered rt config token w resp :
  (∀ r, rt_axios rt (length (requests w)) r = inr resp) →
  ∃ w', setupAuth_device rt config token w = (Normal tt, w')
        ∧ length (requests w') = S (length (requests w))
        ∧ store w' = store w.
Proof.
  intros Hanswer. rewrite setupAuth_device_run. simpl. rewrite Hanswer.
  eexists. split; [reflexivity|]. simpl. rewrite length_app. simpl.
  split; [lia|done].
Qed.

Lemma setupAuth_session_answered rt config token w resp sessionToken userId :
  (∀ r, rt_axios rt (length (requests w)) r = inr resp) →
  session_scan resp = Normal (sessionToken, userId) →
  truthy sessionToken = true →
  ∃ w', setupAuth_session rt config token w = (Normal userId, w')
        ∧ length (requests w') = S (length (requests w))
        ∧ store w' = if truthy userId
                     then <["userId" := userId]>
                            (<["sessionToken" := sessionToken]> (store w))
                     else <["sessionToken" := sessionToken]> (store w).
Proof.
  intros Hanswer Hscan Htoken. rewrite setupAuth_session_run. simpl.
  rewrite Hanswer, Hscan, Htoken. eexists. split; [reflexivity|].
  simpl. rewrite length_app. simpl. split; [lia|]. by destruct (truthy userId).
Qed.

Lemma requests_length_step (before after : World) (r : Request) :
  requests after = requests before ++ [r] →
  length (requests after) = length (requests before) + 1.
Proof. intros ->. by rewrite length_app. Qed.


Lemma setupAuth_keypair_regenerates_witness :
  store (snd (setupAuth_keypair (sample_runtime handshake_answers)
                                (world_of store_with_keys))) !! "apiKey"
    = store_with_keys !! "apiKey".
Proof.
  apply (proj2 (proj2 (proj2 (proj2
           (setupAuth_keypair_regenerates (sample_runtime handshake_answers)
                                          (world_of store_with_keys))))));
    discriminate.
Defined.

(** ** Sample runs *)

Example toUpperCase_post : toUpperCase "post" = "POST".
Proof. reflexivity. Qed.

Example String_of_identifier : String_ (JNum 42) = "42".
Proof. reflexivity. Qed.

Example session_scan_person :
  session_scan (envelope [token_entry "T2"; user_person_entry 42])
    = Normal (JStr "T2", JStr "42").
Proof. reflexivity. Qed.

Example installation_scan_last_token :
  installation_scan (envelope [token_entry "first"; token_entry "last"])
    = Normal (JStr "last", JNull).
Proof. reflexivity. Qed.

Example installation_scan_null_entry :
  installation_scan (envelope [JNull])
    = Throw (TypeError_ "Cannot read properties of null (reading 'Token')").
Proof. reflexivity. Qed.

Example installation_scan_no_array :
  installation_scan (JObj [])
    = Throw (TypeError_ "installationResp.Response is not iterable").
Proof. reflexivity. Qed.

Example dataToSign_without_body :
  dataToSign "get" "/user/42" JNull = "GET /v1/user/42" +:+ LF +:+ LF.
Proof. reflexivity. Qed.

Example dataToSign_with_body :
  dataToSign "post" "/session-server" (JArr [JNum 1; JNull; JBool true])
    = "POST /v1/session-server" +:+ LF +:+ LF +:+ "[1,null,true]".
Proof. reflexivity. Qed.

Example handleError_line_unauthorized :
  handleError_line unauthorized
    = "HTTP 401: {" +:+ DQ +:+ "Error" +:+ DQ +:+ ":[]}".
Proof. reflexivity. Qed.

Example handleError_line_plain :
  handleError_line (Error_ "Failed to obtain session token.")
    = "Failed to obtain session token.".
Proof. reflexivity. Qed.

Example setupAuth_console :
  console (snd (setupAuth (sample_runtime (answers_until 0))
                          (world_of store_with_secret)))
    = [SpinnerStart "Setting up Bunq authentication...";
       SpinnerText "Generating RSA key pair...";
       SpinnerText "Registering installation with Bunq...";
       SpinnerFail "Authentication failed.";
       ErrorLine ("HTTP 401: {" +:+ DQ +:+ "Error" +:+ DQ +:+ ":[]}")].
Proof. vm_compute. reflexivity. Qed.

(** ** What the handshake leaves in the store *)

Lemma for_of_no_exit {S} (body : S -> value -> completion S) items :
  (∀ acc item code, body acc item ≠ Exit code) →
  ∀ acc code, for_of body items acc ≠ Exit code.
Proof.
  intros Hbody. induction items as [|item items IH]; intros acc code; [done|].
  simpl. destruct (body acc item) as [acc'| |code'] eqn:Hstep; simpl;
    [apply IH | done | by apply Hbody in Hstep].
Qed.

Lemma prop_no_exit v k code : prop v k ≠ Exit code.
Proof. by destruct v. Qed.

Lemma installation_item_no_exit acc item code :
  installation_item acc item ≠ Exit code.
Proof.
  destruct acc as [token key]. unfold installation_item.
  destruct (prop item "Token") as [T| |] eqn:H1; simpl;
    [|done|by apply prop_no_exit in H1].
  destruct (truthy T);
    [destruct (prop T "token") as [t| |] eqn:H2; simpl;
       [|done|by apply prop_no_exit in H2]|simpl];
    (destruct (prop item "ServerPublicKey") as [K| |] eqn:H3; simpl;
       [|done|by apply prop_no_exit in H3]);
    (destruct (truthy K);
       [destruct (prop K "server_public_key") as [k| |] eqn:H4; simpl;
          [done|done|by apply prop_no_exit in H4]|done]).
Qed.

Lemma installation_scan_no_exit resp code : installation_scan resp ≠ Exit code.
Proof.
  unfold installation_scan.
  destruct (prop resp "Response") as [R| |] eqn:H1; simpl;
    [|done|by apply prop_no_exit in H1].
  destruct R; simpl; try done;
    apply for_of_no_exit; apply installation_item_no_exit.
Qed.

Lemma session_item_no_exit acc item code : session_item acc item ≠ Exit code.
Proof.
  destruct acc as [token uid]. unfold session_item.
  destruct (prop item "Token") as [T| |] eqn:H1; simpl;
    [|done|by apply prop_no_exit in H1].
  assert (∀ c : completion value,
            (∀ n, c ≠ Exit n) →
            ∀ n, cbind c (fun t => cbind (prop item "UserPerson") (fun P =>
                   cbind (if truthy P
                          then cbind (prop P "id")
                                 (fun id => Normal (JStr (String_ id)))
                          else cbind (prop item "UserCompany") (fun C =>
                                 if truthy C
                                 then cbind (prop C "id")
                                        (fun id => Normal (JStr (String_ id)))
                                 else cbind (prop item "UserApiKey") (fun A =>
                                        if truthy A
                                        then cbind (prop A "id")
                                               (fun id => Normal (JStr (String_ id)))
                                        else Normal uid)))
                         (fun u => Normal (t, u)))) ≠ Exit n) as Hrest.
  { intros c Hc n. destruct c as [t| |n']; simpl; [|done|by destruct (Hc n')].
    destruct (prop item "UserPerson") as [P| |] eqn:H2; simpl;
      [|done|by apply prop_no_exit in H2].
    destruct (truthy P).
    { destruct (prop P "id") as [i| |] eqn:H3; simpl;
        [done|done|by apply prop_no_exit in H3]. }
    destruct (prop item "UserCompany") as [C| |] eqn:H4; simpl;
      [|done|by apply prop_no_exit in H4].
    destruct (truthy C).
    { destruct (prop C "id") as [i| |] eqn:H5; simpl;
        [done|done|by apply prop_no_exit in H5]. }
    destruct (prop item "UserApiKey") as [A| |] eqn:H6; simpl;
      [|done|by apply prop_no_exit in H6].
    destruct (truthy A); [|done].
    destruct (prop A "id") as [i| |] eqn:H7; simpl;
      [done|done|by apply prop_no_exit in H7]. }
  apply Hrest. intros n. destruct (truthy T); [apply prop_no_exit | done].
Qed.

Lemma session_scan_no_exit resp code : session_scan resp ≠ Exit code.
Proof.
  unfold session_scan.
  destruct (prop resp "Response") as [R| |] eqn:H1; simpl;
    [|done|by apply prop_no_exit in H1].
  destruct R; simpl; try done;
    apply for_of_no_exit; apply session_item_no_exit.
Qed.

Lemma setupAuth_installation_cases rt publicKey w :
  let run := setupAuth_installation rt publicKey w in
  length (requests (snd run)) = length (requests w) + 1
  ∧ ((∃ err, fst run = Throw err ∧ store (snd run) = store w)
     ∨ (∃ token key, fst run = Normal token ∧ truthy token = true
                     ∧ store (snd run) = installation_stored token key (store w))).
Proof.
  intros run. subst run. rewrite setupAuth_installation_run. simpl.
  destruct (rt_axios rt _ _) as [err|resp]; simpl.
  { rewrite length_app. split; [done|]. left. eauto. }
  destruct (installation_scan resp) as [[token key]|err|code] eqn:Hscan; simpl.
  - destruct (truthy token) eqn:Htoken; simpl; rewrite length_app;
      (split; [done|]); [right | left; eauto].
    exists token, key. unfold installation_stored. by destruct (truthy key).
  - rewrite length_app. split; [done|]. left. eauto.
  - by apply installation_scan_no_exit in Hscan.
Qed.

Lemma setupAuth_device_cases rt config token w :
  let run := setupAuth_device rt config token w in
  length (requests (snd run)) = length (requests w) + 1
  ∧ store (snd run) = store w
  ∧ ((∃ err, fst run = Throw err) ∨ fst run = Normal tt).
Proof.
  intros run. subst run. rewrite setupAuth_device_run. simpl.
  rewrite length_app. split; [done|]. split; [done|].
  destruct (rt_axios rt _ _); eauto.
Qed.

Lemma setupAuth_session_cases rt config token w :
  let run := setupAuth_session rt config token w in
  length (requests (snd run)) = length (requests w) + 1
  ∧ ((∃ err, fst run = Throw err ∧ store (snd run) = store w)
     ∨ (∃ sessionToken userId,
          fst run = Normal userId ∧ truthy sessionToken = true
          ∧ store (snd run) = session_stored sessionToken userId (store w))).
Proof.
  intros run. subst run. rewrite setupAuth_session_run. simpl.
  destruct (rt_axios rt _ _) as [err|resp]; simpl.
  { rewrite length_app. split; [done|]. left. eauto. }
  destruct (session_scan resp) as [[token' uid]|err|code] eqn:Hscan; simpl.
  - destruct (truthy token') eqn:Htoken; simpl; rewrite length_app;
      (split; [done|]); [right | left; eauto].
    exists token', uid. unfold session_stored. by destruct (truthy uid).
  - rewrite length_app. split; [done|]. left. eauto.
  - by apply session_scan_no_exit in Hscan.
Qed.

(** The [try] block of [setupAuth] ends in one of the four ways of
    [setup_outcome]. *)
Lemma setupAuth_steps_outcome rt config w :
  setup_outcome rt w (fst (setupAuth_steps rt config w))
                     (snd (setupAuth_steps rt config w)).
Proof.
  unfold setupAuth_steps, bind. rewrite setupAuth_keypair_run.
  set (w1 := {| store := _ |}).
  assert (store w1 = keys_stored (rt_generateKeyPairSync rt (keypairs w))
                                 (store w)) as Hst1 by reflexivity.
  assert (length (requests w1) = length (requests w)) as Hn1 by reflexivity.
  clearbody w1.
  generalize (snd (rt_generateKeyPairSync rt (keypairs w))) at 1 2 as pk.
  intros pk.
  destruct (setupAuth_installation_cases rt pk w1) as [Hn2 Hcase2].
  destruct (setupAuth_installation rt pk w1) as [res2 w2].
  simpl in Hn2, Hcase2.
  destruct Hcase2 as [(err & -> & Hst2) | (token & key & -> & Htoken & Hst2)].
  { simpl. apply setup_installation_failed; [by rewrite Hst2, Hst1 | lia]. }
  rewrite Hst1 in Hst2.
  destruct (setupAuth_device_cases rt config token w2) as (Hn3 & Hst3 & Hcase3).
  destruct (setupAuth_device rt config token w2) as [res3 w3].
  simpl in Hn3, Hst3, Hcase3.
  destruct Hcase3 as [[err ->] | ->].
  { simpl. apply (setup_device_failed rt w err w3 token key);
      [done | by rewrite Hst3, Hst2 | lia]. }
  destruct (setupAuth_session_cases rt config token w3) as [Hn4 Hcase4].
  destruct (setupAuth_session rt config token w3) as [res4 w4].
  simpl in Hn4, Hcase4.
  destruct Hcase4 as [(err & -> & Hst4) | (stoken & uid & -> & Hstoken & Hst4)].
  { simpl. apply (setup_session_failed rt w err w4 token key);
      [done | by rewrite Hst4, Hst3, Hst2 | lia]. }
  unfold emit, info, emit, ret.
  destruct (truthy uid); simpl;
    apply (setup_done rt w _ token key stoken uid); simpl;
    try done; try lia; by rewrite Hst4, Hst3, Hst2.
Qed.

Lemma refreshSession_steps_outcome rt config w :
  refresh_outcome w (fst (refreshSession_steps rt config w))
                    (snd (refreshSession_steps rt config w)).
Proof.
  unfold refreshSession_steps, bind. rewrite bunqPost_run.
  unfold transport_outcome.
  destruct (rt_axios rt _ _) as [err|resp]; simpl.
  { apply refresh_failed; simpl; [done | by rewrite length_app]. }
  unfold lift.
  destruct (session_scan resp) as [[token uid]|err|code] eqn:Hscan; simpl.
  - destruct (truthy token) eqn:Htoken; simpl.
    + destruct (truthy uid) eqn:Huid; simpl;
        apply (refresh_done w _ token uid); simpl;
        unfold session_stored; rewrite ?Huid; try done; by rewrite length_app.
    + apply refresh_failed; simpl; [done | by rewrite length_app].
  - apply refresh_failed; simpl; [done | by rewrite length_app].
  - by apply session_scan_no_exit in Hscan.
Qed.

Lemma try_catch_cases {A} failure (body : M A) (handler : js_error -> M A) w :
  (∀ err w', handler err w' = (Exit 1, reported failure err w')) →
  (∃ a, fst (body w) = Normal a ∧ try_catch body handler w = body w)
  ∨ (∃ err, fst (body w) = Throw err
            ∧ try_catch body handler w
              = (Exit 1, reported failure err (snd (body w))))
  ∨ (∃ code, fst (body w) = Exit code ∧ try_catch body handler w = body w).
Proof.
  intros Hhandler. unfold try_catch.
  destruct (body w) as [[a|err|code] w']; simpl; eauto.
Qed.

Lemma keys_stored_other keys (st : gmap string value) k :
  k ∉ handshake_fields → keys_stored keys st !! k = st !! k.
Proof.
  unfold handshake_fields, keys_stored. intros Hk.
  rewrite !lookup_insert_ne; [done|..]; intros <-; apply Hk; set_solver.
Qed.

Lemma installation_stored_other token key (st : gmap string value) k :
  k ∉ handshake_fields → installation_stored token key st !! k = st !! k.
Proof.
  unfold handshake_fields, installation_stored. intros Hk.
  destruct (truthy key); rewrite !lookup_insert_ne; try done;
    intros <-; apply Hk; set_solver.
Qed.

Lemma session_stored_other token uid (st : gmap string value) k :
  k ≠ "sessionToken" → k ≠ "userId" → session_stored token uid st !! k = st !! k.
Proof.
  unfold session_stored. intros H1 H2.
  destruct (truthy uid); rewrite !lookup_insert_ne; done.
Qed.

Lemma session_stored_token token uid (st : gmap string value) :
  session_stored token uid st !! "sessionToken" = Some token.
Proof. unfold session_stored. destruct (truthy uid); by simplify_map_eq. Qed.

Lemma installation_stored_token token key (st : gmap string value) :
  installation_stored token key st !! "installationToken" = Some token.
Proof. unfold installation_stored. destruct (truthy key); by simplify_map_eq. Qed.

Lemma installation_stored_session token key (st : gmap string value) k :
  k ≠ "installationToken" → k ≠ "serverPublicKey" →
  installation_stored token key st !! k = st !! k.
Proof.
  unfold installation_stored. intros H1 H2.
  destruct (truthy key); rewrite !lookup_insert_ne; done.
Qed.

(** The outcome of a whole run of [setupAuth] that finds an API key. *)
Lemma setupAuth_outcome rt w :
  truthy (field (store w) "apiKey") = true →
  (fst (setupAuth rt w) = Normal tt
   ∧ setup_outcome rt w (Normal tt) (snd (setupAuth rt w)))
  ∨ (∃ err w', fst (setupAuth rt w) = Exit 1
               ∧ snd (setupAuth rt w) = reported "Authentication failed." err w'
               ∧ setup_outcome rt w (Throw err) w').
Proof.
  intros Hkey. rewrite (setupAuth_with_key rt w Hkey).
  set (w0 := log_event (SpinnerStart "Setting up Bunq authentication...") w).
  pose proof (setupAuth_steps_outcome rt (store w) w0) as Hout.
  assert (∀ c w', setup_outcome rt w0 c w' → setup_outcome rt w c w') as Hsame.
  { intros c w' H.
    inversion H as [e w1 Hs Hn | e w1 tok ky Ht Hs Hn | e w1 tok ky Ht Hs Hn
                   | w1 tok ky stok uid Ht Hst Hs Hn]; subst.
    - by apply setup_installation_failed.
    - by apply (setup_device_failed rt w e w' tok ky).
    - by apply (setup_session_failed rt w e w' tok ky).
    - by apply (setup_done rt w w' tok ky stok uid). }
  apply Hsame in Hout.
  destruct (try_catch_cases "Authentication failed."
              (setupAuth_steps rt (store w)) setupAuth_failed w0
              setupAuth_failed_run)
    as [(a & Hres & ->) | [(err & Hres & ->) | (code & Hres & ->)]].
  - destruct a. left. rewrite Hres in *. done.
  - right. exists err, (snd (setupAuth_steps rt (store w) w0)).
    rewrite Hres in Hout. done.
  - rewrite Hres in Hout. inversion Hout.
Qed.

Lemma refreshSession_outcome rt w :
  truthy (field (store w) "apiKey") = true →
  truthy (field (store w) "installationToken") = true →
  (fst (refreshSession rt w) = Normal tt
   ∧ refresh_outcome w (Normal tt) (snd (refreshSession rt w)))
  ∨ (∃ err w', fst (refreshSession rt w) = Exit 1
               ∧ snd (refreshSession rt w)
                 = reported "Session refresh failed." err w'
               ∧ refresh_outcome w (Throw err) w').
Proof.
  intros Hkey Hinst. rewrite (refreshSession_with_installation rt w Hkey Hinst).
  set (w0 := log_event (SpinnerStart "Refreshing session...") w).
  pose proof (refreshSession_steps_outcome rt (store w) w0) as Hout.
  assert (∀ c w', refresh_outcome w0 c w' → refresh_outcome w c w') as Hsame.
  { intros c w' H.
    inversion H as [e w1 Hs Hn | w1 stok uid Ht Hs Hn]; subst.
    - by apply refresh_failed.
    - by apply (refresh_done w w' stok uid). }
  apply Hsame in Hout.
  destruct (try_catch_cases "Session refresh failed."
              (refreshSession_steps rt (store w)) refreshSession_failed w0
              refreshSession_failed_run)
    as [(a & Hres & ->) | [(err & Hres & ->) | (code & Hres & ->)]].
  - destruct a. left. rewrite Hres in *. done.
  - right. exists err, (snd (refreshSession_steps rt (store w) w0)).
    rewrite Hres in Hout. done.
  - rewrite Hres in Hout. inversion Hout.
Qed.

Lemma setupAuth_frame rt w k :
  k ∉ handshake_fields → store (snd (setupAuth rt w)) !! k = store w !! k.
Proof.
  intros Hk. destruct (truthy (field (store w) "apiKey")) eqn:Hkey.
  - assert (k ≠ "sessionToken" ∧ k ≠ "userId") as [Hs Hu].
    { split; intros ->; apply Hk; unfold handshake_fields; set_solver. }
    destruct (setupAuth_outcome rt w Hkey)
      as [[_ Hout] | (err & w' & _ & -> & Hout)].
    + inversion Hout as [| | | w1 tok ky stok uid Ht Hst Hstore Hn]; subst.
      by rewrite Hstore, session_stored_other, installation_stored_other,
           keys_stored_other.
    + simpl.
      inversion Hout as [e w1 Hstore Hn | e w1 tok ky Ht Hstore Hn
                        | e w1 tok ky Ht Hstore Hn |]; subst; rewrite Hstore.
      * by rewrite keys_stored_other.
      * by rewrite installation_stored_other, keys_stored_other.
      * by rewrite installation_stored_other, keys_stored_other.
  - by rewrite (setupAuth_without_key rt w Hkey).
Qed.

(** X1. The handshake writes only its own six fields: after a run of
    [setupAuth] or of [refreshSession], however it ends, every other field
    of the store (the API key and the environment among them) is what it
    was. *)
Theorem handshake_writes_only_credentials rt w k :
  k ∉ handshake_fields →
  store (snd (setupAuth rt w)) !! k = store w !! k
  ∧ store (snd (refreshSession rt w)) !! k = store w !! k.
Proof.
  intros Hk. split; [by apply setupAuth_frame|].
  destruct (truthy (field (store w) "apiKey")) eqn:Hkey;
    [|by rewrite (refreshSession_without_key rt w Hkey)].
  destruct (truthy (field (store w) "installationToken")) eqn:Hinst.
  - assert (k ≠ "sessionToken" ∧ k ≠ "userId") as [Hs Hu].
    { split; intros ->; apply Hk; unfold handshake_fields; set_solver. }
    destruct (refreshSession_outcome rt w Hkey Hinst)
      as [[_ Hout] | (err & w' & _ & -> & Hout)].
    + inversion Hout as [| w1 stok uid Ht Hstore Hn]; subst.
      by rewrite Hstore, session_stored_other.
    + simpl. inversion Hout as [e w1 Hstore Hn |]; subst. by rewrite Hstore.
  - rewrite (refreshSession_delegates rt w Hkey Hinst).
    by rewrite setupAuth_frame.
Qed.

Lemma handshake_writes_only_credentials_witness :
  store (snd (setupAuth (sample_runtime handshake_answers)
                        (world_of store_with_secret))) !! "apiKey"
    = store_with_secret !! "apiKey"
  ∧ store (snd (refreshSession (sample_runtime handshake_answers)
                               (world_of store_with_secret))) !! "apiKey"
    = store_with_secret !! "apiKey".
Proof.
  apply (handshake_writes_only_credentials (sample_runtime handshake_answers)
           (world_of store_with_secret) "apiKey").
  unfold handshake_fields.
  repeat (apply not_elem_of_cons; split; [discriminate|]).
  apply not_elem_of_nil.
Defined.

(** X2. When [setupAuth] returns normally, an API key was there, exactly
    three requests were sent, and the store holds a non-empty installation
    token, a non-empty session token and the key pair generated in this
    run. *)
Theorem setupAuth_success_state rt w :
  fst (setupAuth rt w) = Normal tt →
  let keys := rt_generateKeyPairSync rt (keypairs w) in
  let w' := snd (setupAuth rt w) in
  truthy (field (store w) "apiKey") = true
  ∧ length (requests w') = length (requests w) + 3
  ∧ truthy (field (store w') "installationToken") = true
  ∧ truthy (field (store w') "sessionToken") = true
  ∧ store w' !! "privateKey" = Some (JStr (fst keys))
  ∧ store w' !! "publicKey" = Some (JStr (snd keys)).
Proof.
  intros Hnormal keys w'.
  destruct (truthy (field (store w) "apiKey")) eqn:Hkey;
    [|by rewrite (setupAuth_without_key rt w Hkey) in Hnormal].
  split; [done|].
  destruct (setupAuth_outcome rt w Hkey)
    as [[_ Hout] | (err & w1 & Hexit & _)]; [|congruence].
  fold w' in Hout.
  inversion Hout as [| | | w1 tok ky stok uid Ht Hst Hstore Hn]; subst.
  split; [exact Hn|]. unfold field. rewrite Hstore.
  rewrite session_stored_token.
  rewrite !session_stored_other by done.
  rewrite installation_stored_token.
  rewrite !installation_stored_session by done.
  unfold keys_stored. by simplify_map_eq.
Qed.

Lemma setupAuth_success_state_witness :
  length (requests (snd (setupAuth (sample_runtime handshake_answers)
                                   (world_of store_with_secret)))) = 3
  ∧ store (snd (setupAuth (sample_runtime handshake_answers)
                          (world_of store_with_secret))) !! "privateKey"
    = Some (JStr "PRIVATE KEY 0").
Proof.
  destruct (setupAuth_success_state (sample_runtime handshake_answers)
              (world_of store_with_secret) eq_refl)
    as (_ & Hn & _ & _ & Hpriv & _).
  split; [exact Hn | exact Hpriv].
Defined.

(** X3. When [setupAuth] ends with an exit, the status is 1 and the stored
    session token and user identifier are what they were before the run;
    yet, if an API key was there, the stored key pair has been replaced by
    the newly generated one. Without an API key the store is untouched. *)
Theorem setupAuth_failure_state rt w code :
  fst (setupAuth rt w) = Exit code →
  let keys := rt_generateKeyPairSync rt (keypairs w) in
  let w' := snd (setupAuth rt w) in
  code = 1%Z
  ∧ store w' !! "sessionToken" = store w !! "sessionToken"
  ∧ store w' !! "userId" = store w !! "userId"
  ∧ (truthy (field (store w) "apiKey") = true →
       store w' !! "privateKey" = Some (JStr (fst keys))
       ∧ store w' !! "publicKey" = Some (JStr (snd keys)))
  ∧ (truthy (field (store w) "apiKey") = false → store w' = store w).
Proof.
  intros Hexit keys w'. subst w'.
  destruct (truthy (field (store w) "apiKey")) eqn:Hkey.
  - destruct (setupAuth_outcome rt w Hkey)
      as [[Hnormal _] | (err & w1 & Hone & Hworld & Hout)]; [congruence|].
    rewrite Hone in Hexit. injection Hexit as <-. split; [done|].
    rewrite Hworld. simpl.
    inversion Hout as [e w2 Hstore Hn | e w2 tok ky Ht Hstore Hn
                      | e w2 tok ky Ht Hstore Hn |]; subst; rewrite Hstore;
      rewrite ?installation_stored_session by done;
      unfold keys_stored; repeat split; try done; by simplify_map_eq.
  - rewrite (setupAuth_without_key rt w Hkey) in *. simpl in *.
    injection Hexit as <-. done.
Qed.

Lemma setupAuth_failure_state_witness :
  store (snd (setupAuth (sample_runtime (answers_until 1))
                        (world_of store_with_keys))) !! "privateKey"
    = Some (JStr "PRIVATE KEY 0")
  ∧ store (snd (setupAuth (sample_runtime (answers_until 1))
                          (world_of store_with_keys))) !! "sessionToken"
    = store_with_keys !! "sessionToken".
Proof.
  destruct (setupAuth_failure_state (sample_runtime (answers_until 1))
              (world_of store_with_keys) 1 eq_refl)
    as (_ & Hsession & _ & Hkeys & _).
  split; [exact (proj1 (Hkeys eq_refl)) | exact Hsession].
Defined.

(** X4. A session refresh with an API key and an installation token in the
    store is all or nothing: when it fails, the status is 1 and the store
    is exactly what it was; when it returns, the store holds a non-empty
    session token. Either way nothing but the session token and the user
    identifier is written. *)
Theorem refreshSession_all_or_nothing rt w :
  truthy (field (store w) "apiKey") = true →
  truthy (field (store w) "installationToken") = true →
  let run := refreshSession rt w in
  (∀ k, k ≠ "sessionToken" → k ≠ "userId" →
        store (snd run) !! k = store w !! k)
  ∧ ((fst run = Exit 1 ∧ store (snd run) = store w)
     ∨ (fst run = Normal tt
        ∧ truthy (field (store (snd run)) "sessionToken") = true)).
Proof.
  intros Hkey Hinst run. subst run.
  destruct (refreshSession_outcome rt w Hkey Hinst)
    as [[Hnormal Hout] | (err & w' & Hexit & Hworld & Hout)].
  - inversion Hout as [| w1 stok uid Ht Hstore Hn]; subst. split.
    + intros k H1 H2. by rewrite Hstore, session_stored_other.
    + right. split; [done|]. unfold field.
      by rewrite Hstore, session_stored_token.
  - inversion Hout as [e w1 Hstore Hn |]; subst. rewrite Hworld. simpl. split.
    + intros k _ _. by rewrite Hstore.
    + left. by rewrite Hexit.
Qed.

Lemma refreshSession_all_or_nothing_witness :
  store (snd (refreshSession (sample_runtime (answers_until 0))
                             (world_of store_installed)))
    !! "installationToken" = Some (JStr "I1").
Proof.
  exact (proj1 (refreshSession_all_or_nothing (sample_runtime (answers_until 0))
                  (world_of store_installed) eq_refl eq_refl)
           "installationToken" ltac:(discriminate) ltac:(discriminate)).
Defined.

(** ** The requests of the handshake, header by header *)

Lemma select_token_keys_stored token keys (st : gmap string value) :
  select_token token (keys_stored keys st) = select_token token st.
Proof. unfold select_token, field, keys_stored. by simplify_map_eq. Qed.

Lemma dispatched_signature rt method endpoint body token w :
  req_headers (dispatched rt method endpoint body token w)
    !! "X-Bunq-Client-Signature"
  = attached_signature rt method endpoint body (field (store w) "privateKey").
Proof.
  unfold dispatched, with_header, fixed_headers. simpl.
  destruct (attached_signature _ _ _ _ _);
    destruct (select_token token (store w)); by simplify_map_eq.
Qed.

Lemma dispatched_request_id rt method endpoint body token w :
  req_headers (dispatched rt method endpoint body token w)
    !! "X-Bunq-Client-Request-Id" = Some (JStr (rt_randomUUID rt (uuids w))).
Proof.
  unfold dispatched, with_header, fixed_headers. simpl.
  destruct (attached_signature _ _ _ _ _);
    destruct (select_token token (store w)); by simplify_map_eq.
Qed.

(** The first request of the [try] block of [setupAuth]. *)
Lemma setupAuth_steps_first_request rt config w :
  ∃ rest, requests (snd (setupAuth_steps rt config w))
          = requests w ++ installation_call rt w :: rest.
Proof.
  unfold setupAuth_steps, bind. rewrite setupAuth_keypair_run.
  set (keys := rt_generateKeyPairSync rt (keypairs w)).
  set (w1 := {| store := _ |}).
  assert (requests (snd (setupAuth_installation rt (snd keys) w1))
          = requests w ++ [installation_call rt w]) as Hreq1.
  { rewrite setupAuth_installation_run. simpl.
    destruct (rt_axios rt _ _) as [err|resp]; [reflexivity|].
    destruct (installation_scan resp) as [[tok key]|err|code]; try reflexivity.
    destruct (truthy tok); reflexivity. }
  clearbody w1.
  destruct (setupAuth_installation rt (snd keys) w1) as [[token|err|code] w2];
    simpl in *; [|by exists []..].
  destruct (setupAuth_device_effect rt config token w2) as (d & Hreq2 & _).
  destruct (setupAuth_device rt config token w2) as [[[]|err|code] w3];
    simpl in *;
    [|exists [d]; by rewrite Hreq2, Hreq1, <- app_assoc..].
  destruct (setupAuth_session_effect rt config token w3) as (s & Hreq3 & _).
  exists [d; s].
  assert (requests (snd (setupAuth_session rt config token w3))
          = requests w ++ [installation_call rt w; d; s]) as Hall.
  { rewrite Hreq3, Hreq2, Hreq1, <- !app_assoc. done. }
  destruct (setupAuth_session rt config token w3) as [[uid|err|code] w4];
    simpl in *; try done.
  unfold emit, info, emit, ret. by destruct (truthy uid).
Qed.

Lemma setupAuth_first_request rt w :
  truthy (field (store w) "apiKey") = true →
  ∃ rest, requests (snd (setupAuth rt w))
          = requests w ++ installation_call rt w :: rest.
Proof.
  intros Hkey. rewrite (setupAuth_with_key rt w Hkey).
  destruct (try_catch_reported "Authentication failed."
              (setupAuth_steps rt (store w)) setupAuth_failed
              (log_event (SpinnerStart "Setting up Bunq authentication...") w)
              setupAuth_failed_run) as [-> _].
  exact (setupAuth_steps_first_request rt (store w)
           (log_event (SpinnerStart "Setting up Bunq authentication...") w)).
Qed.

(** X5. The installation request of [setupAuth] carries the newly generated
    public key; it is signed with the newly generated private key whenever
    the signer produces a signature; and its authentication header is the
    session token found in the store, else the installation token found
    there: it goes out unauthenticated only when the store holds neither. *)
Theorem setupAuth_installation_request rt w :
  truthy (field (store w) "apiKey") = true →
  let keys := rt_generateKeyPairSync rt (keypairs w) in
  let body := JObj [("client_public_key", JStr (snd keys))] in
  ∃ i rest,
    requests (snd (setupAuth rt w)) = requests w ++ i :: rest
    ∧ posted_to rt (store w) "/installation" i
    ∧ req_data i = body
    ∧ req_headers i !! "X-Bunq-Client-Authentication"
      = select_token JNull (store w)
    ∧ req_headers i !! "X-Bunq-Client-Signature"
      = attached_signature rt "POST" "/installation" body (JStr (fst keys)).
Proof.
  intros Hkey keys body.
  destruct (setupAuth_first_request rt w Hkey) as [rest Hreq].
  exists (installation_call rt w), rest. split; [exact Hreq|].
  unfold installation_call. fold keys body. split; [|split; [done|split]].
  - split; [done|]. simpl. f_equal. apply base_url_sandbox.
    unfold keys_stored. by simplify_map_eq.
  - rewrite dispatched_authentication. simpl.
    apply select_token_keys_stored.
  - rewrite dispatched_signature. simpl. f_equal.
    unfold field, keys_stored. by simplify_map_eq.
Qed.

Lemma setupAuth_installation_request_witness :
  ∃ i rest,
    requests (snd (setupAuth (sample_runtime handshake_answers)
                             (world_of store_with_secret))) = i :: rest
    ∧ req_headers i !! "X-Bunq-Client-Authentication" = None.
Proof.
  destruct (setupAuth_installation_request (sample_runtime handshake_answers)
              (world_of store_with_secret) eq_refl)
    as (i & rest & Hreq & _ & _ & Hauth & _).
  exists i, rest. split; [exact Hreq | exact Hauth].
Defined.

(** ** The session response *)

(** One round of the session loop on an object: it ends normally; an object
    without a [Token] key leaves the token found so far as it is, and an
    object without a principal leaves the user identifier as it is. *)
Lemma session_item_object fields token uid :
  ∃ token' uid',
    session_item (token, uid) (JObj fields) = Normal (token', uid')
    ∧ (has_entry "Token" (JObj fields) = false → token' = token)
    ∧ (has_principal (JObj fields) = false → uid' = uid).
Proof.
  unfold session_item, has_principal. simpl.
  destruct (truthy (lookup_field "Token" fields)) eqn:HT;
    [destruct (prop_truthy _ "token" HT) as [t' ->]|]; simpl;
    (destruct (truthy (lookup_field "UserPerson" fields)) eqn:HP;
       [destruct (prop_truthy _ "id" HP) as [i ->]; simpl
       |simpl; destruct (truthy (lookup_field "UserCompany" fields)) eqn:HC;
          [destruct (prop_truthy _ "id" HC) as [i ->]; simpl
          |simpl; destruct (truthy (lookup_field "UserApiKey" fields)) eqn:HA;
             [destruct (prop_truthy _ "id" HA) as [i ->]; simpl|simpl]]]);
    eexists _, _; (split; [reflexivity|]);
    (split;
       [intros H; try reflexivity;
        apply lookup_field_absent in H; rewrite H in HT; discriminate
       |intros H; try reflexivity;
        apply orb_false_elim in H as [H1 H3];
        apply orb_false_elim in H1 as [H1 H2];
        apply lookup_field_absent in H1, H2, H3;
        first [rewrite H1 in HP; discriminate
              |rewrite H2 in HC; discriminate
              |rewrite H3 in HA; discriminate]]).
Qed.

Lemma session_loop_objects items :
  forallb is_object items = true →
  ∀ token uid, ∃ token' uid',
    for_of session_item items (token, uid) = Normal (token', uid')
    ∧ (no_entry "Token" items = true → token' = token)
    ∧ (forallb (fun item => negb (has_principal item)) items = true →
       uid' = uid).
Proof.
  induction items as [|item items IH]; intros Hwf token uid.
  - exists token, uid. done.
  - simpl in Hwf. apply andb_prop in Hwf as [Hitem Hrest].
    destruct item; try discriminate.
    destruct (session_item_object fields token uid)
      as (t1 & u1 & Hstep & Ht1 & Hu1).
    destruct (IH Hrest t1 u1) as (t2 & u2 & Hloop & Ht2 & Hu2).
    exists t2, u2. cbn [for_of]. rewrite Hstep. cbn [cbind].
    split; [exact Hloop|].
    unfold no_entry. cbn [forallb].
    split; intros [Hhead Htail]%andb_prop; apply negb_true_iff in Hhead.
    + rewrite Ht2, Ht1; done.
    + rewrite Hu2, Hu1; done.
Qed.

(** X6. A session refresh whose response is a well-formed envelope. When no
    entry is a token entry, the refresh reports "Failed to obtain session
    token.", ends with status 1 and leaves the store, the old session token
    included, as it was. When no entry is a principal, the refresh does not
    write the user identifier: the stored one stays. *)
Theorem refreshSession_session_envelope rt w items :
  truthy (field (store w) "apiKey") = true →
  truthy (field (store w) "installationToken") = true →
  forallb is_object items = true →
  (∀ r, rt_axios rt (length (requests w)) r = inr (envelope items)) →
  let run := refreshSession rt w in
  (no_entry "Token" items = true →
     ∃ w', run = (Exit 1,
                  reported "Session refresh failed."
                           (Error_ "Failed to obtain session token.") w')
           ∧ store w' = store w)
  ∧ (forallb (fun item => negb (has_principal item)) items = true →
       store (snd run) !! "userId" = store w !! "userId").
Proof.
  intros Hkey Hinst Hwf Hanswer run. subst run.
  rewrite (refreshSession_with_installation rt w Hkey Hinst).
  destruct (session_loop_objects items Hwf JNull JNull)
    as (token & uid & Hloop & Htoken & Huid).
  assert (session_scan (envelope items) = Normal (token, uid)) as Hscan
    by exact Hloop.
  unfold try_catch, refreshSession_steps, bind. rewrite bunqPost_run.
  unfold transport_outcome. simpl. rewrite Hanswer. unfold lift.
  rewrite Hscan. split.
  - intros Hnone. rewrite (Htoken Hnone). simpl. eauto.
  - intros Hnone. rewrite (Huid Hnone). simpl.
    destruct (truthy token); simpl; [|done]. by simplify_map_eq.
Qed.

Lemma refreshSession_session_envelope_witness :
  ∃ w', refreshSession
          (sample_runtime (fun _ => inr (envelope [user_person_entry 42])))
          (world_of store_installed)
        = (Exit 1,
           reported "Session refresh failed."
                    (Error_ "Failed to obtain session token.") w')
        ∧ store w' = store_installed.
Proof.
  exact (proj1 (refreshSession_session_envelope
                  (sample_runtime (fun _ => inr (envelope [user_person_entry 42])))
                  (world_of store_installed) [user_person_entry 42]
                  eq_refl eq_refl eq_refl (fun _ => eq_refl)) eq_refl).
Defined.

Lemma for_of_app {S} (body : S -> value -> completion S) items more acc :
  for_of body (items ++ more) acc
    = cbind (for_of body items acc) (for_of body more).
Proof.
  revert acc. induction items as [|item items IH]; intros acc; [done|].
  simpl. destruct (body acc item); simpl; [apply IH | done | done].
Qed.

(** X7. In both scans the last token entry wins: when the scan of an
    envelope ends normally, the scan of the same envelope with one more
    token entry at its end yields that entry's token, and the server key
    (the user identifier) found before. *)
Theorem scan_last_token_wins items token :
  (∀ found key,
     installation_scan (envelope items) = Normal (found, key) →
     installation_scan (envelope (items ++ [token_entry token]))
       = Normal (JStr token, key))
  ∧ (∀ found uid,
       session_scan (envelope items) = Normal (found, uid) →
       session_scan (envelope (items ++ [token_entry token]))
         = Normal (JStr token, uid)).
Proof.
  split; intros found other Hscan.
  - unfold installation_scan, envelope in *. simpl in *.
    by rewrite for_of_app, Hscan.
  - unfold session_scan, envelope in *. simpl in *.
    by rewrite for_of_app, Hscan.
Qed.

Lemma scan_last_token_wins_witness :
  installation_scan (envelope ([token_entry "first"; server_key_entry "pk"]
                               ++ [token_entry "last"]))
    = Normal (JStr "last", JStr "pk").
Proof.
  exact (proj1 (scan_last_token_wins [token_entry "first"; server_key_entry "pk"]
                  "last") (JStr "first") (JStr "pk") eq_refl).
Defined.

(** ** Configuration commands and what follows them *)

(** X8. After [config clear] the store is empty, whatever it held. A
    following [setupAuth] reports the missing API key and ends with status
    1 without any request, and a following dispatch without an explicit
    token sends a request with neither an authentication nor a signature
    header. *)
Theorem config_clear_then rt w method endpoint body :
  let w1 := snd (config_clear w) in
  store w1 = ∅
  ∧ fst (setupAuth rt w1) = Exit 1
  ∧ requests (snd (setupAuth rt w1)) = requests w
  ∧ ∃ r, requests (snd (bunqRequest rt method endpoint body JNull w1))
           = requests w ++ [r]
         ∧ req_headers r !! "X-Bunq-Client-Authentication" = None
         ∧ req_headers r !! "X-Bunq-Client-Signature" = None.
Proof.
  intros w1. assert (store w1 = ∅) as Hempty by reflexivity.
  assert (requests w1 = requests w) as Hreq by reflexivity.
  clearbody w1. split; [done|].
  assert (truthy (field (store w1) "apiKey") = false) as Hkey
    by (by rewrite Hempty).
  rewrite (setupAuth_without_key rt w1 Hkey). simpl.
  split; [done|]. split; [done|].
  rewrite bunqRequest_run. eexists. split; [by rewrite <- Hreq|].
  rewrite dispatched_authentication, dispatched_signature, Hempty. done.
Qed.

(** X9. [config set] and the environment. With [--production] the store
    ends with [sandbox] false, also when [--sandbox] is given as well; with
    [--sandbox] alone it ends with [sandbox] true. Without an API key among
    the options no field but [sandbox] is written, and without any option
    the store is left as it was. *)
Theorem config_set_environment opts w :
  let st := store (snd (config_set opts w)) in
  (opt_production opts = true → st !! "sandbox" = Some (JBool false))
  ∧ (opt_production opts = false → opt_sandbox opts = true →
       st !! "sandbox" = Some (JBool true))
  ∧ (given (opt_apiKey opts) = false →
       ∀ k, k ≠ "sandbox" → st !! k = store w !! k)
  ∧ (given (opt_apiKey opts) = false → opt_sandbox opts = false →
     opt_production opts = false → st = store w).
Proof.
  unfold config_set.
  destruct (given (opt_apiKey opts)), (opt_sandbox opts), (opt_production opts);
    simpl; repeat split; try done; intros; by simplify_map_eq.
Qed.

Lemma config_set_environment_witness :
  store (snd (config_set {| opt_apiKey := None; opt_sandbox := true;
                            opt_production := true |}
                         (world_of store_installed))) !! "sandbox"
    = Some (JBool false)
  ∧ store (snd (config_set {| opt_apiKey := None; opt_sandbox := true;
                              opt_production := true |}
                           (world_of store_installed))) !! "installationToken"
    = store_installed !! "installationToken".
Proof.
  split.
  - exact (proj1 (config_set_environment
                    {| opt_apiKey := None; opt_sandbox := true;
                       opt_production := true |}
                    (world_of store_installed)) eq_refl).
  - exact (proj1 (proj2 (proj2 (config_set_environment
                    {| opt_apiKey := None; opt_sandbox := true;
                       opt_production := true |}
                    (world_of store_installed)))) eq_refl
             "installationToken" ltac:(discriminate)).
Defined.

(** X10. After the API key has been set anew, a session refresh is a full
    setup: it announces it and runs [setupAuth], whose installation request
    goes out without an authentication header, whatever tokens the store
    held before the key was set. *)
Theorem rotation_then_refresh rt opts w key :
  opt_apiKey opts = Some key → key ≠ "" →
  let w1 := snd (config_set opts w) in
  refreshSession rt w1
    = setupAuth rt
        (log_event (InfoLine "No installation found. Running full setup...") w1)
  ∧ ∃ i rest,
      requests (snd (refreshSession rt w1)) = requests w ++ i :: rest
      ∧ req_url i = base_url rt (store w1) +:+ "/installation"
      ∧ req_headers i !! "X-Bunq-Client-Authentication" = None.
Proof.
  intros Hopt Hne w1.
  assert (store w1 !! "apiKey" = Some (JStr key)
          ∧ store w1 !! "installationToken" = None
          ∧ store w1 !! "sessionToken" = None) as (Hkey & Hinst & Hsess).
  { subst w1. unfold config_set, given. rewrite Hopt. simpl.
    rewrite bool_decide_eq_false_2 by done. simpl.
    destruct (opt_sandbox opts), (opt_production opts); simpl;
      repeat split; by simplify_map_eq. }
  assert (requests w1 = requests w) as Hreq.
  { subst w1. unfold config_set.
    destruct (given (opt_apiKey opts)), (opt_sandbox opts),
      (opt_production opts); reflexivity. }
  clearbody w1.
  assert (truthy (field (store w1) "apiKey") = true) as Htruthy.
  { unfold field. rewrite Hkey. simpl. by rewrite bool_decide_eq_false_2. }
  assert (truthy (field (store w1) "installationToken") = false) as Hnone.
  { unfold field. by rewrite Hinst. }
  rewrite (refreshSession_delegates rt w1 Htruthy Hnone). split; [done|].
  set (w2 := log_event _ w1).
  destruct (setupAuth_first_request rt w2 Htruthy) as [rest Hall].
  exists (installation_call rt w2), rest.
  split; [by rewrite Hall, <- Hreq|]. unfold installation_call. split.
  - simpl. f_equal. apply base_url_sandbox. unfold keys_stored.
    by simplify_map_eq.
  - rewrite dispatched_authentication. simpl.
    rewrite select_token_keys_stored. unfold select_token, field.
    by rewrite Hinst, Hsess.
Qed.

Lemma rotation_then_refresh_witness :
  ∃ i rest,
    requests (snd (refreshSession (sample_runtime handshake_answers)
                     (snd (config_set {| opt_apiKey := Some "new secret";
                                         opt_sandbox := false;
                                         opt_production := false |}
                                      (world_of store_installed)))))
      = i :: rest
    ∧ req_headers i !! "X-Bunq-Client-Authentication" = None.
Proof.
  destruct (proj2 (rotation_then_refresh (sample_runtime handshake_answers)
                     {| opt_apiKey := Some "new secret"; opt_sandbox := false;
                        opt_production := false |}
                     (world_of store_installed) "new secret"
                     eq_refl ltac:(discriminate)))
    as (i & rest & Hreq & _ & Hauth).
  exists i, rest. split; [exact Hreq | exact Hauth].
Defined.

(** ** More on the dispatcher *)

Lemma upper_ascii_idempotent c : upper_ascii (upper_ascii c) = upper_ascii c.
Proof. destruct c as [[] [] [] [] [] [] [] []]; reflexivity. Qed.

Lemma toUpperCase_idempotent s : toUpperCase (toUpperCase s) = toUpperCase s.
Proof.
  induction s as [|c s IH]; [done|].
  simpl. by rewrite upper_ascii_idempotent, IH.
Qed.

(** X11. The signature does not depend on the letter case of the method:
    the signing string, the signer's result and the signature a dispatch
    attaches are the same for a method and for its upper-cased form. *)
Theorem signature_ignores_method_case rt method endpoint body privateKey :
  dataToSign (toUpperCase method) endpoint body = dataToSign method endpoint body
  ∧ signRequest rt (toUpperCase method) endpoint body privateKey
    = signRequest rt method endpoint body privateKey
  ∧ attached_signature rt (toUpperCase method) endpoint body privateKey
    = attached_signature rt method endpoint body privateKey.
Proof.
  assert (dataToSign (toUpperCase method) endpoint body
          = dataToSign method endpoint body) as Hdata.
  { unfold dataToSign. by rewrite toUpperCase_idempotent. }
  assert (signRequest rt (toUpperCase method) endpoint body privateKey
          = signRequest rt method endpoint body privateKey) as Hsign.
  { unfold signRequest. by rewrite Hdata. }
  split; [done|]. split; [done|]. unfold attached_signature. by rewrite Hsign.
Qed.

(** X12. After a run of [setupAuth] that returned normally, a dispatch
    without an explicit token is authenticated with the session token that
    run stored, and its signature is the one made with the private key that
    run generated. *)
Theorem dispatch_after_setup rt w method endpoint body :
  fst (setupAuth rt w) = Normal tt →
  let keys := rt_generateKeyPairSync rt (keypairs w) in
  let w' := snd (setupAuth rt w) in
  ∃ r sessionToken,
    requests (snd (bunqRequest rt method endpoint body JNull w'))
      = requests w' ++ [r]
    ∧ store w' !! "sessionToken" = Some sessionToken
    ∧ truthy sessionToken = true
    ∧ req_headers r !! "X-Bunq-Client-Authentication" = Some sessionToken
    ∧ req_headers r !! "X-Bunq-Client-Signature"
      = attached_signature rt method endpoint body (JStr (fst keys)).
Proof.
  intros Hnormal keys w'.
  destruct (truthy (field (store w) "apiKey")) eqn:Hkey;
    [|by rewrite (setupAuth_without_key rt w Hkey) in Hnormal].
  destruct (setupAuth_outcome rt w Hkey)
    as [[_ Hout] | (err & w1 & Hexit & _)]; [|congruence].
  fold w' in Hout.
  inversion Hout as [| | | w1 tok ky stok uid Ht Hst Hstore Hn]; subst.
  assert (store w' !! "sessionToken" = Some stok) as Hsession
    by (by rewrite Hstore, session_stored_token).
  assert (store w' !! "privateKey" = Some (JStr (fst keys))) as Hprivate.
  { rewrite Hstore, session_stored_other, installation_stored_session by done.
    unfold keys_stored. by simplify_map_eq. }
  rewrite bunqRequest_run. eexists _, stok. split; [reflexivity|].
  split; [done|]. split; [done|].
  rewrite dispatched_authentication, dispatched_signature.
  unfold select_token, field. rewrite Hsession, Hprivate. simpl.
  by rewrite Hst.
Qed.

Lemma dispatch_after_setup_witness :
  ∃ r sessionToken,
    requests (snd (bunqRequest (sample_runtime handshake_answers)
                     "GET" "/user" JNull JNull
                     (snd (setupAuth (sample_runtime handshake_answers)
                                     (world_of store_with_secret)))))
      = requests (snd (setupAuth (sample_runtime handshake_answers)
                                 (world_of store_with_secret))) ++ [r]
    ∧ req_headers r !! "X-Bunq-Client-Authentication" = Some sessionToken.
Proof.
  destruct (dispatch_after_setup (sample_runtime handshake_answers)
              (world_of store_with_secret) "GET" "/user" JNull eq_refl)
    as (r & tok & Hreq & _ & _ & Hauth & _).
  exists r, tok. split; [exact Hreq | exact Hauth].
Defined.

(** X13. Every dispatch draws one UUID: two dispatches in a row send two
    requests whose request identifiers are two successive draws of the
    generator, hence different ones when the generator does not repeat
    itself. *)
Theorem dispatch_request_ids rt w method1 endpoint1 body1 token1
    method2 endpoint2 body2 token2 :
  let w1 := snd (bunqRequest rt method1 endpoint1 body1 token1 w) in
  let w2 := snd (bunqRequest rt method2 endpoint2 body2 token2 w1) in
  ∃ r1 r2,
    requests w2 = requests w ++ [r1; r2]
    ∧ req_headers r1 !! "X-Bunq-Client-Request-Id"
      = Some (JStr (rt_randomUUID rt (uuids w)))
    ∧ req_headers r2 !! "X-Bunq-Client-Request-Id"
      = Some (JStr (rt_randomUUID rt (S (uuids w))))
    ∧ ((∀ m n, rt_randomUUID rt m = rt_randomUUID rt n → m = n) →
       req_headers r1 !! "X-Bunq-Client-Request-Id"
       ≠ req_headers r2 !! "X-Bunq-Client-Request-Id").
Proof.
  intros w1 w2. subst w2 w1. rewrite !bunqRequest_run. simpl.
  eexists _, _. split; [by rewrite <- app_assoc|].
  rewrite !dispatched_request_id. simpl. split; [done|]. split; [done|].
  intros Hinj [= Heq]. apply Hinj in Heq. lia.
Qed.

Lemma dispatch_request_ids_witness :
  ∃ r1 r2,
    requests (snd (bunqRequest (sample_runtime handshake_answers)
                     "GET" "/user" JNull JNull
                     (snd (bunqRequest (sample_runtime handshake_answers)
                             "GET" "/user" JNull JNull (world_of ∅)))))
      = [r1; r2]
    ∧ req_headers r1 !! "X-Bunq-Client-Request-Id"
      ≠ req_headers r2 !! "X-Bunq-Client-Request-Id".
Proof.
  destruct (dispatch_request_ids (sample_runtime handshake_answers)
              (world_of ∅) "GET" "/user" JNull JNull "GET" "/user" JNull JNull)
    as (r1 & r2 & Hreq & _ & _ & Hdiff).
  exists r1, r2. split; [exact Hreq|]. apply Hdiff.
  intros m n H. simpl in H. apply (inj (String.app "uuid-")) in H.
  by apply (inj pretty) in H.
Defined.

(** ** What the configuration and status commands show *)

Lemma truthy_nonempty s : s ≠ "" → truthy (JStr s) = true.
Proof. intros H. simpl. by rewrite bool_decide_eq_false_2. Qed.

(** X14. [config get] shows of the API key and of the session token what
    [slice(0, 8)] keeps of them, their first eight UTF-16 units, and nothing
    of the other credentials: two stores whose API keys agree on that
    beginning, whose session tokens do as well, and which agree on the
    environment and on the user identifier print the same lines, whatever
    else they hold. *)
Theorem config_get_shows_prefixes_only (st1 st2 : gmap string value)
    apiKey1 apiKey2 token1 token2 :
  st1 !! "apiKey" = Some (JStr apiKey1) →
  st2 !! "apiKey" = Some (JStr apiKey2) →
  st1 !! "sessionToken" = Some (JStr token1) →
  st2 !! "sessionToken" = Some (JStr token2) →
  apiKey1 ≠ "" → apiKey2 ≠ "" → token1 ≠ "" → token2 ≠ "" →
  js_slice_0 8 apiKey1 = js_slice_0 8 apiKey2 →
  js_slice_0 8 token1 = js_slice_0 8 token2 →
  st1 !! "sandbox" = st2 !! "sandbox" →
  st1 !! "userId" = st2 !! "userId" →
  config_get st1 = config_get st2
  ∧ ∃ lines, config_get st1 = Normal lines.
Proof.
  intros Ha1 Ha2 Ht1 Ht2 Hn1 Hn2 Hn3 Hn4 Ha Ht Hs Hu.
  unfold config_get, config_get_details, field.
  rewrite Ha1, Ha2, Ht1, Ht2, Hs, Hu. simpl default.
  rewrite !truthy_nonempty by done. simpl. rewrite Ha, Ht. eauto.
Qed.

Lemma config_get_shows_prefixes_only_witness :
  config_get (<["sessionToken" := JStr "session-1-aaaa"]>
              (<["apiKey" := JStr "sandbox_0123456789"]> store_with_keys))
  = config_get (<["sessionToken" := JStr "session-2-bbbb"]>
                (<["apiKey" := JStr "sandbox_abcdef"]> ∅)).
Proof.
  refine (proj1 (config_get_shows_prefixes_only
                   (<["sessionToken" := JStr "session-1-aaaa"]>
                    (<["apiKey" := JStr "sandbox_0123456789"]> store_with_keys))
                   (<["sessionToken" := JStr "session-2-bbbb"]>
                    (<["apiKey" := JStr "sandbox_abcdef"]> ∅))
                   "sandbox_0123456789" "sandbox_abcdef"
                   "session-1-aaaa" "session-2-bbbb"
                   eq_refl eq_refl eq_refl eq_refl _ _ _ _
                   eq_refl eq_refl eq_refl eq_refl)); discriminate.
Defined.

Example js_slice_0_ascii : js_slice_0 8 "sandbox_0123456789" = "sandbox_".
Proof. reflexivity. Qed.

Example js_slice_0_two_bytes : js_slice_0 8 "éééé1234567" = "éééé1234".
Proof. reflexivity. Qed.

Example js_slice_0_three_bytes : js_slice_0 2 "─x─x" = "─x".
Proof. reflexivity. Qed.

Example js_slice_0_pair : js_slice_0 3 "a😀bc" = "a😀".
Proof. reflexivity. Qed.

Example js_slice_0_half_pair :
  js_slice_0 2 "a😀bc" = "a" +:+ replacement_character.
Proof. reflexivity. Qed.

Example config_get_tells_apart :
  config_get (<["apiKey" := JStr "éééé1234567"]> ∅)
  ≠ config_get (<["apiKey" := JStr "ééééABCDEFG"]> ∅).
Proof. vm_compute. discriminate. Qed.

(** X15. What [auth status] reports after the two commands that change the
    credentials. After a run of [setupAuth] that returned normally it
    reports the API key, the installation token and the session token as
    set. After [config set] with a new API key it reports the API key as
    set, both tokens as not set and no user identifier. *)
Theorem auth_status_after rt w :
  (fst (setupAuth rt w) = Normal tt →
     take 3 (auth_status_details rt (store (snd (setupAuth rt w))))
     = [("API Key set", JStr "yes"); ("Installation token", JStr "yes");
        ("Session token", JStr "yes")])
  ∧ (∀ opts key,
       opt_apiKey opts = Some key → key ≠ "" →
       take 4 (auth_status_details rt (store (snd (config_set opts w))))
       = [("API Key set", JStr "yes"); ("Installation token", JStr "no");
          ("Session token", JStr "no"); ("User ID", JStr "(not set)")]).
Proof.
  split.
  - intros Hnormal.
    destruct (truthy (field (store w) "apiKey")) eqn:Hkey;
      [|by rewrite (setupAuth_without_key rt w Hkey) in Hnormal].
    destruct (setupAuth_outcome rt w Hkey)
      as [[_ Hout] | (err & w1 & Hexit & _)]; [|congruence].
    inversion Hout as [| | | w1 tok ky stok uid Ht Hst Hstore Hn]; subst.
    assert ("apiKey" ∉ handshake_fields) as Hother.
    { unfold handshake_fields.
      repeat (apply not_elem_of_cons; split; [discriminate|]).
      apply not_elem_of_nil. }
    unfold auth_status_details, field. simpl take. rewrite Hstore.
    rewrite session_stored_token, !session_stored_other by done.
    rewrite installation_stored_token, installation_stored_other by done.
    rewrite keys_stored_other by done.
    unfold field in Hkey. simpl. by rewrite Hkey, Ht, Hst.
  - intros opts key Hopt Hne.
    unfold auth_status_details, field, config_set, given. rewrite Hopt. simpl.
    rewrite bool_decide_eq_false_2 by done. simpl.
    destruct (opt_sandbox opts), (opt_production opts); simpl;
      simplify_map_eq; simpl; by rewrite bool_decide_eq_false_2.
Qed.

Lemma auth_status_after_witness :
  take 3 (auth_status_details (sample_runtime handshake_answers)
            (store (snd (setupAuth (sample_runtime handshake_answers)
                                   (world_of store_with_secret)))))
  = [("API Key set", JStr "yes"); ("Installation token", JStr "yes");
     ("Session token", JStr "yes")].
Proof.
  exact (proj1 (auth_status_after (sample_runtime handshake_answers)
                  (world_of store_with_secret)) eq_refl).
Defined.

Lemma append_length (a b : string) :
  String.length (a +:+ b) = String.length a + String.length b.
Proof.
  induction a as [|c a IH]; [done|].
  change (S (String.length (a +:+ b)) = S (String.length a + String.length b)).
  by rewrite IH.
Qed.

Lemma repeat_string_length s n :
  String.length (repeat_string s n) = n * String.length s.
Proof.
  induction n as [|n IH]; [done|].
  simpl. rewrite append_length, IH. lia.
Qed.

Lemma padEnd_length s n :
  String.length (padEnd s n) = Nat.max (String.length s) n.
Proof.
  unfold padEnd. rewrite append_length, repeat_string_length. simpl. lia.
Qed.



(** ** The alignment of tables *)

Lemma reduce_width_sound col rows max width :
  reduce_width col rows max = Normal width →
  max ≤ width
  ∧ Forall (fun row => ∃ val, cell_text col row = Normal val
                              ∧ String.length val ≤ width) rows.
Proof.
  revert max. induction rows as [|row rows IH]; intros max Hreduce.
  - injection Hreduce as <-. split; [lia | constructor].
  - simpl in Hreduce.
    destruct (cell_text col row) as [val| |] eqn:Hcell; try discriminate.
    simpl in Hreduce. apply IH in Hreduce as [Hmax Hrest].
    split; [lia|]. constructor; [|exact Hrest].
    exists val. split; [done | lia].
Qed.

(** The widths [printTable] computes: one per column, at least as wide as
    the header and as every cell of the column. *)
Lemma widths_sound rows columns widths :
  map_throwing (column_width rows) columns = Normal widths →
  Forall2 (fun col width =>
             String.length (header col) ≤ width
             ∧ Forall (fun row => ∃ val, cell_text col row = Normal val
                                         ∧ String.length val ≤ width) rows)
          columns widths.
Proof.
  revert widths. induction columns as [|col columns IH]; intros widths Hmap.
  - injection Hmap as <-. constructor.
  - simpl in Hmap. unfold column_width at 1 in Hmap.
    destruct (reduce_width col rows 0) as [m| |] eqn:Hreduce; try discriminate.
    simpl in Hmap.
    destruct (map_throwing (column_width rows) columns) as [ws| |];
      try discriminate.
    injection Hmap as <-. apply reduce_width_sound in Hreduce as [_ Hcells].
    constructor; [|by apply IH]. split; [lia|].
    eapply Forall_impl; [exact Hcells|].
    intros row (val & Hval & Hlen). exists val. split; [done | lia].
Qed.

Lemma join_length sep (xs ys : list string) :
  map String.length xs = map String.length ys →
  String.length (join sep xs) = String.length (join sep ys).
Proof.
  revert ys. induction xs as [|x xs IH]; intros [|y ys] Hmap; try done.
  injection Hmap as Hhead Htail. specialize (IH ys Htail).
  destruct xs as [|x' xs], ys as [|y' ys]; try done.
  change (String.length (x +:+ sep +:+ join sep (x' :: xs))
          = String.length (y +:+ sep +:+ join sep (y' :: ys))).
  rewrite !append_length. lia.
Qed.

(** With sound widths every row is printed, and its line is as long as the
    header line. *)
Lemma row_line_aligned rows columns widths row :
  Forall2 (fun col width =>
             String.length (header col) ≤ width
             ∧ Forall (fun row => ∃ val, cell_text col row = Normal val
                                         ∧ String.length val ≤ width) rows)
          columns widths →
  row ∈ rows →
  ∃ line, row_line columns widths row = Normal line
          ∧ String.length line = String.length (header_line columns widths).
Proof.
  intros Hsound Hrow. unfold row_line, header_line.
  assert (∃ cells,
            map_throwing
              (fun cw : Column * nat =>
                 cbind (cell_text (fst cw) row) (fun val =>
                 Normal (padEnd val (snd cw))))
              (zip columns widths) = Normal cells
            ∧ map String.length cells
              = map String.length
                  (map (fun cw : Column * nat => padEnd (header (fst cw)) (snd cw))
                       (zip columns widths))) as (cells & -> & Hlengths).
  { induction Hsound as [|col width columns widths [Hheader Hcells] _ IH].
    - by exists [].
    - destruct IH as (cells & Hmap & Hlengths).
      rewrite Forall_forall in Hcells.
      destruct (Hcells row Hrow) as (val & Hval & Hlen).
      exists (padEnd val width :: cells). simpl. rewrite Hval. simpl.
      rewrite Hmap. simpl. split; [done|].
      rewrite Hlengths, !padEnd_length. f_equal. lia. }
  simpl. eexists. split; [done|]. by apply join_length.
Qed.

Lemma print_rows_aligned rows columns widths todo printed :
  Forall2 (fun col width =>
             String.length (header col) ≤ width
             ∧ Forall (fun row => ∃ val, cell_text col row = Normal val
                                         ∧ String.length val ≤ width) rows)
          columns widths →
  todo ⊆ rows →
  ∃ lines,
    print_rows columns widths todo printed
      = (printed ++ map (fun line => [(Plain, line)]) lines, Normal tt)
    ∧ length lines = length todo
    ∧ Forall (fun line => String.length line
                          = String.length (header_line columns widths)) lines.
Proof.
  intros Hsound. revert printed.
  induction todo as [|row todo IH]; intros printed Hsub.
  - exists []. simpl. by rewrite app_nil_r.
  - destruct (row_line_aligned rows columns widths row Hsound)
      as (line & Hline & Hlen); [set_solver|].
    destruct (IH (printed ++ [[(Plain, line)]])) as (lines & Hrun & Hn & Hall);
      [set_solver|].
    exists (line :: lines). simpl. rewrite Hline, Hrun, <- app_assoc.
    split; [done|]. split; [by rewrite Hn|]. by constructor.
Qed.

(** X17. [printTable] on an array of rows that is not empty. Either some
    accessor throws, and then nothing at all has been printed; or the table
    is printed whole: the header line, a rule with one bar per character of
    the header line, and one line per row, each exactly as long as the
    header line, so that the columns are aligned. *)
Theorem printTable_aligned rows columns :
  rows ≠ [] →
  let out := printTable (JArr rows) columns in
  (∀ err, snd out = Throw err → fst out = [])
  ∧ (snd out = Normal tt →
       ∃ head lines,
         fst out
           = [(BoldCyan, head)]
             :: [(Cyan, repeat_string rule_char (String.length head))]
             :: map (fun line => [(Plain, line)]) lines
         ∧ length lines = length rows
         ∧ Forall (fun line => String.length line = String.length head) lines).
Proof.
  intros Hrows out. subst out. unfold printTable.
  destruct rows as [|row rows]; [done|]. simpl negb. simpl orb. cbv iota.
  destruct (map_throwing (column_width (row :: rows)) columns)
    as [widths|err'|code] eqn:Hwidths.
  - apply widths_sound in Hwidths.
    destruct (print_rows_aligned (row :: rows) columns widths (row :: rows)
                [[(BoldCyan, header_line columns widths)];
                 [(Cyan, repeat_string rule_char
                           (String.length (header_line columns widths)))]]
                Hwidths) as (lines & Hrun & Hn & Hall); [done|].
    rewrite Hrun. simpl. split; [done|]. intros _.
    by exists (header_line columns widths), lines.
  - split; done.
  - split; done.
Qed.

Lemma printTable_aligned_witness :
  ∃ head lines,
    fst (printTable (JArr sample_rows) sample_columns)
      = [(BoldCyan, head)]
        :: [(Cyan, repeat_string rule_char (String.length head))]
        :: map (fun line => [(Plain, line)]) lines
    ∧ length lines = 2
    ∧ Forall (fun line => String.length line = String.length head) lines.
Proof.
  exact (proj2 (printTable_aligned sample_rows sample_columns
                  ltac:(discriminate)) eq_refl).
Defined.

(** ** Refreshing after a setup *)

Lemma refreshSession_single_request rt w :
  truthy (field (store w) "apiKey") = true →
  truthy (field (store w) "installationToken") = true →
  ∃ s, requests (snd (refreshSession rt w)) = requests w ++ [s]
       ∧ posted_to rt (store w) "/session-server" s
       ∧ authenticated_with (field (store w) "installationToken") s.
Proof.
  intros Hkey Hinst. rewrite (refreshSession_with_installation rt w Hkey Hinst).
  destruct (try_catch_reported "Session refresh failed."
              (refreshSession_steps rt (store w)) refreshSession_failed
              (log_event (SpinnerStart "Refreshing session...") w)
              refreshSession_failed_run) as [-> _].
  destruct (refreshSession_steps_effect rt (store w)
              (log_event (SpinnerStart "Refreshing session...") w))
    as (s & Hreq & Hpost & Hauth).
  exists s. auto.
Qed.

Lemma apiKey_not_written : "apiKey" ∉ handshake_fields.
Proof.
  unfold handshake_fields.
  repeat (apply not_elem_of_cons; split; [discriminate|]).
  apply not_elem_of_nil.
Qed.

(** X18. After a run of [setupAuth] that returned normally, a session
    refresh takes the short way: it sends exactly one request, to the
    session endpoint, authenticated with the installation token the setup
    stored. *)
Theorem refresh_after_setup rt w :
  fst (setupAuth rt w) = Normal tt →
  let w' := snd (setupAuth rt w) in
  ∃ s token,
    store w' !! "installationToken" = Some token
    ∧ truthy token = true
    ∧ requests (snd (refreshSession rt w')) = requests w' ++ [s]
    ∧ posted_to rt (store w') "/session-server" s
    ∧ authenticated_with token s.
Proof.
  intros Hnormal w'.
  destruct (truthy (field (store w) "apiKey")) eqn:Hkey;
    [|by rewrite (setupAuth_without_key rt w Hkey) in Hnormal].
  destruct (setupAuth_outcome rt w Hkey)
    as [[_ Hout] | (err & w1 & Hexit & _)]; [|congruence].
  fold w' in Hout.
  inversion Hout as [| | | w1 tok ky stok uid Ht Hst Hstore Hn]; subst.
  assert (store w' !! "installationToken" = Some tok) as Hinst.
  { by rewrite Hstore, session_stored_other, installation_stored_token. }
  assert (store w' !! "apiKey" = store w !! "apiKey") as Hsame.
  { rewrite Hstore, session_stored_other, installation_stored_other,
      keys_stored_other; auto using apiKey_not_written. }
  destruct (refreshSession_single_request rt w') as (s & Hreq & Hpost & Hauth).
  { unfold field in *. by rewrite Hsame. }
  { unfold field. by rewrite Hinst. }
  exists s, tok. unfold field in Hauth. rewrite Hinst in Hauth. done.
Qed.

Lemma refresh_after_setup_witness :
  ∃ s token,
    requests (snd (refreshSession (sample_runtime handshake_answers)
                     (snd (setupAuth (sample_runtime handshake_answers)
                                     (world_of store_with_secret)))))
      = requests (snd (setupAuth (sample_runtime handshake_answers)
                                 (world_of store_with_secret))) ++ [s]
    ∧ authenticated_with token s.
Proof.
  destruct (refresh_after_setup (sample_runtime handshake_answers)
              (world_of store_with_secret) eq_refl)
    as (s & tok & _ & _ & Hreq & _ & Hauth).
  exists s, tok. split; [exact Hreq | exact Hauth].
Defined.

(** X19. When the installation succeeds and the device registration is
    rejected, [setupAuth] ends with status 1 but the new installation token
    stays in the store; a session refresh run after that goes straight to
    the session endpoint with this token: the device registration is not
    tried again. *)
Theorem refresh_after_failed_device rt w resp token key err :
  truthy (field (store w) "apiKey") = true →
  (∀ r, rt_axios rt (length (requests w)) r = inr resp) →
  installation_scan resp = Normal (token, key) →
  truthy token = true →
  (∀ r, rt_axios rt (S (length (requests w))) r = inl err) →
  let w' := snd (setupAuth rt w) in
  fst (setupAuth rt w) = Exit 1
  ∧ length (requests w') = length (requests w) + 2
  ∧ store w' !! "installationToken" = Some token
  ∧ ∃ s, requests (snd (refreshSession rt w')) = requests w' ++ [s]
         ∧ posted_to rt (store w') "/session-server" s
         ∧ authenticated_with token s.
Proof.
  intros Hkey Hfirst Hscan Htoken Hsecond w'.
  assert (fst (setupAuth rt w) = Exit 1
          ∧ length (requests w') = length (requests w) + 2
          ∧ store w' = installation_stored token key
                         (keys_stored (rt_generateKeyPairSync rt (keypairs w))
                                      (store w))) as (Hexit & Hn & Hstore).
  { subst w'. rewrite (setupAuth_with_key rt w Hkey).
    set (w0 := log_event (SpinnerStart "Setting up Bunq authentication...") w).
    unfold try_catch, setupAuth_steps, bind. rewrite setupAuth_keypair_run.
    set (keys := rt_generateKeyPairSync rt (keypairs w0)).
    set (w1 := {| store := _ |}).
    assert (length (requests w1) = length (requests w)) as Hn1 by reflexivity.
    assert (store w1 = keys_stored keys (store w)) as Hst1 by reflexivity.
    clearbody w1.
    destruct (setupAuth_installation_answered rt (snd keys) w1 resp token key)
      as (w2 & -> & Hn2 & Hst2); [by rewrite Hn1 | done | done |].
    rewrite setupAuth_device_run. simpl. rewrite Hn2, Hn1, Hsecond. simpl.
    split; [done|]. rewrite length_app. simpl. split; [lia|].
    rewrite Hst2, Hst1. reflexivity. }
  split; [done|]. split; [done|].
  assert (store w' !! "installationToken" = Some token) as Hinst
    by (by rewrite Hstore, installation_stored_token).
  split; [done|].
  destruct (refreshSession_single_request rt w') as (s & Hreq & Hpost & Hauth).
  { unfold field in *.
    by rewrite Hstore, installation_stored_other, keys_stored_other
      by apply apiKey_not_written. }
  { unfold field. by rewrite Hinst. }
  exists s. unfold field in Hauth. rewrite Hinst in Hauth. done.
Qed.

Lemma refresh_after_failed_device_witness :
  fst (setupAuth (sample_runtime (answers_until 1))
                 (world_of store_with_secret)) = Exit 1
  ∧ ∃ s, requests (snd (refreshSession (sample_runtime (answers_until 1))
                          (snd (setupAuth (sample_runtime (answers_until 1))
                                          (world_of store_with_secret)))))
         = requests (snd (setupAuth (sample_runtime (answers_until 1))
                                    (world_of store_with_secret))) ++ [s]
         ∧ authenticated_with (JStr "T1") s.
Proof.
  destruct (refresh_after_failed_device (sample_runtime (answers_until 1))
              (world_of store_with_secret) (envelope [token_entry "T1"])
              (JStr "T1") JNull unauthorized
              eq_refl (fun _ => eq_refl) eq_refl eq_refl (fun _ => eq_refl))
    as (Hexit & _ & _ & s & Hreq & _ & Hauth).
  split; [exact Hexit|]. exists s. split; [exact Hreq | exact Hauth].
Defined.

(** X20. The user identifier the session scan yields is [String(id)] of
    the last principal entry, of whichever of the three kinds: appending a
    principal entry to an envelope whose scan succeeds keeps the token found
    and replaces the user identifier by the printed [id] of that entry,
    which is the string "undefined" when the entry has no [id]. *)
Theorem scan_last_principal_wins items kind fields found uid :
  kind = "UserPerson" ∨ kind = "UserCompany" ∨ kind = "UserApiKey" →
  session_scan (envelope items) = Normal (found, uid) →
  session_scan (envelope (items ++ [JObj [(kind, JObj fields)]]))
    = Normal (found, JStr (String_ (lookup_field "id" fields)))
  ∧ (has_entry "id" (JObj fields) = false →
     session_scan (envelope (items ++ [JObj [(kind, JObj fields)]]))
       = Normal (found, JStr "undefined")).
Proof.
  intros Hkind Hscan.
  assert (session_scan (envelope (items ++ [JObj [(kind, JObj fields)]]))
          = Normal (found, JStr (String_ (lookup_field "id" fields)))) as Hlast.
  { unfold session_scan, envelope in *. simpl in *.
    rewrite for_of_app, Hscan.
    destruct Hkind as [-> | [-> | ->]]; reflexivity. }
  split; [exact Hlast|].
  intros Habsent. rewrite Hlast.
  by rewrite (lookup_field_absent "id" fields Habsent).
Qed.

Lemma scan_last_principal_wins_witness :
  session_scan (envelope ([token_entry "T2"; user_person_entry 42]
                          ++ [JObj [("UserCompany", JObj [("name", JStr "Acme")])]]))
    = Normal (JStr "T2", JStr "undefined").
Proof.
  exact (proj2 (scan_last_principal_wins
                  [token_entry "T2"; user_person_entry 42] "UserCompany"
                  [("name", JStr "Acme")] (JStr "T2") (JStr "42")
                  (or_intror (or_introl eq_refl)) eq_refl) eq_refl).
Defined.

(** ** The full setup: what a failure shows *)

Lemma handleError_line_sound err : error_line err (handleError_line err).
Proof.
  unfold handleError_line.
  destruct err as [m|m|m [[status data]|]]; simpl;
    try apply line_of_response;
    (destruct (bool_decide (m = "")) eqn:Hm; simpl;
       [apply bool_decide_eq_true in Hm as ->; by apply line_unknown
       |apply bool_decide_eq_false in Hm; by apply line_of_message]).
Qed.

(** C1, as the code has it. A run of [setupAuth] with an API key in the
    store. When the installation call is answered with the token "T1", the
    device registration with anything, and the session creation with the
    token "T2" and a person of identifier 42, the run ends normally and the
    store holds [installationToken] "T1", [sessionToken] "T2" and [userId]
    "42". When the installation, the device registration or the session
    creation throws, no later step is attempted, and the error is caught,
    not passed on: the run reports the failure with one line made of the
    error (the status and data of its response, else its message, else a
    fixed text) and ends with status 1, the store and the requests being
    those at the throw. No run ends by throwing. *)
Theorem setupAuth_end_to_end rt w :
  truthy (field (store w) "apiKey") = true →
  let n := length (requests w) in
  let w0 := log_event (SpinnerStart "Setting up Bunq authentication...") w in
  (∀ device,
     (∀ r, rt_axios rt n r = inr (envelope [token_entry "T1"])) →
     (∀ r, rt_axios rt (S n) r = inr device) →
     (∀ r, rt_axios rt (S (S n)) r
           = inr (envelope [token_entry "T2"; user_person_entry 42])) →
     fst (setupAuth rt w) = Normal tt
     ∧ store (snd (setupAuth rt w)) !! "installationToken" = Some (JStr "T1")
     ∧ store (snd (setupAuth rt w)) !! "sessionToken" = Some (JStr "T2")
     ∧ store (snd (setupAuth rt w)) !! "userId" = Some (JStr "42"))
  ∧ (∀ keys w1 err w2,
       setupAuth_keypair rt w0 = (Normal keys, w1) →
       setupAuth_installation rt (snd keys) w1 = (Throw err, w2) →
       length (requests w2) = n + 1
       ∧ ∃ line,
           error_line err line
           ∧ setupAuth rt w
             = (Exit 1,
                log_event (ErrorLine line)
                  (log_event (SpinnerFail "Authentication failed.") w2)))
  ∧ (∀ keys w1 token w2 err w3,
       setupAuth_keypair rt w0 = (Normal keys, w1) →
       setupAuth_installation rt (snd keys) w1 = (Normal token, w2) →
       setupAuth_device rt (store w) token w2 = (Throw err, w3) →
       length (requests w3) = n + 2
       ∧ ∃ line,
           error_line err line
           ∧ setupAuth rt w
             = (Exit 1,
                log_event (ErrorLine line)
                  (log_event (SpinnerFail "Authentication failed.") w3)))
  ∧ (∀ keys w1 token w2 w3 err w4,
       setupAuth_keypair rt w0 = (Normal keys, w1) →
       setupAuth_installation rt (snd keys) w1 = (Normal token, w2) →
       setupAuth_device rt (store w) token w2 = (Normal tt, w3) →
       setupAuth_session rt (store w) token w3 = (Throw err, w4) →
       length (requests w4) = n + 3
       ∧ ∃ line,
           error_line err line
           ∧ setupAuth rt w
             = (Exit 1,
                log_event (ErrorLine line)
                  (log_event (SpinnerFail "Authentication failed.") w4)))
  ∧ (∀ err, fst (setupAuth rt w) ≠ Throw err).
Proof.
  intros Hkey n w0.
  assert (∀ err, fst (setupAuth rt w) ≠ Throw err) as Hcaught.
  { intros err.
    destruct (setupAuth_outcome rt w Hkey)
      as [[-> _] | (err' & w' & -> & _)]; discriminate. }
  rewrite (setupAuth_with_key rt w Hkey) in *. fold w0 in Hcaught |- *.
  assert (∀ keys w1, setupAuth_keypair rt w0 = (Normal keys, w1) →
                     length (requests w1) = n) as Hkeypair.
  { intros keys w1. rewrite setupAuth_keypair_run. by intros [= _ <-]. }
  assert (∀ pk w1 res w2, setupAuth_installation rt pk w1 = (res, w2) →
                          length (requests w2) = length (requests w1) + 1)
    as Hinstallation.
  { intros pk w1 res w2 Hrun.
    destruct (setupAuth_installation_effect rt pk w1) as (i & Hreq & _).
    rewrite Hrun in Hreq. exact (requests_length_step _ _ _ Hreq). }
  assert (∀ tok w2 res w3, setupAuth_device rt (store w) tok w2 = (res, w3) →
                           length (requests w3) = length (requests w2) + 1)
    as Hdevice.
  { intros tok w2 res w3 Hrun.
    destruct (setupAuth_device_effect rt (store w) tok w2) as (d & Hreq & _).
    rewrite Hrun in Hreq. exact (requests_length_step _ _ _ Hreq). }
  assert (∀ tok w3 res w4, setupAuth_session rt (store w) tok w3 = (res, w4) →
                           length (requests w4) = length (requests w3) + 1)
    as Hsession.
  { intros tok w3 res w4 Hrun.
    destruct (setupAuth_session_effect rt (store w) tok w3) as (s & Hreq & _).
    rewrite Hrun in Hreq. exact (requests_length_step _ _ _ Hreq). }
  split; [|split; [|split; [|split; [|exact Hcaught]]]].
  - intros device Hfirst Hsecond Hthird.
    unfold try_catch, setupAuth_steps, bind.
    rewrite setupAuth_keypair_run.
    set (keys := rt_generateKeyPairSync rt (keypairs w0)).
    set (w1 := {| store := _ |}).
    assert (length (requests w1) = n) as Hn1 by reflexivity.
    destruct (setupAuth_installation_answered rt (snd keys) w1
                (envelope [token_entry "T1"]) (JStr "T1") JNull)
      as (w2 & -> & Hn2 & Hst2); [by rewrite Hn1 | done | done |].
    destruct (setupAuth_device_answered rt (store w) (JStr "T1") w2 device)
      as (w3 & -> & Hn3 & Hst3); [by rewrite Hn2, Hn1|].
    destruct (setupAuth_session_answered rt (store w) (JStr "T1") w3
                (envelope [token_entry "T2"; user_person_entry 42])
                (JStr "T2") (JStr "42"))
      as (w4 & -> & Hn4 & Hst4); [by rewrite Hn3, Hn2, Hn1 | done | done |].
    simpl. split; [done|]. rewrite Hst4, Hst3, Hst2. simpl.
    repeat split; by simplify_map_eq.
  - intros keys w1 err w2 Hrun1 Hrun2. split.
    + rewrite (Hinstallation _ _ _ _ Hrun2), (Hkeypair _ _ Hrun1). done.
    + exists (handleError_line err). split; [apply handleError_line_sound|].
      unfold try_catch, setupAuth_steps, bind. by rewrite Hrun1, Hrun2.
  - intros keys w1 token w2 err w3 Hrun1 Hrun2 Hrun3. split.
    + rewrite (Hdevice _ _ _ _ Hrun3), (Hinstallation _ _ _ _ Hrun2),
        (Hkeypair _ _ Hrun1). lia.
    + exists (handleError_line err). split; [apply handleError_line_sound|].
      unfold try_catch, setupAuth_steps, bind. by rewrite Hrun1, Hrun2, Hrun3.
  - intros keys w1 token w2 w3 err w4 Hrun1 Hrun2 Hrun3 Hrun4. split.
    + rewrite (Hsession _ _ _ _ Hrun4), (Hdevice _ _ _ _ Hrun3),
        (Hinstallation _ _ _ _ Hrun2), (Hkeypair _ _ Hrun1). lia.
    + exists (handleError_line err). split; [apply handleError_line_sound|].
      unfold try_catch, setupAuth_steps, bind.
      by rewrite Hrun1, Hrun2, Hrun3, Hrun4.
Qed.

Lemma setupAuth_end_to_end_witness :
  (fst (setupAuth (sample_runtime handshake_answers)
                  (world_of store_with_secret)) = Normal tt
   ∧ store (snd (setupAuth (sample_runtime handshake_answers)
                           (world_of store_with_secret)))
       !! "installationToken" = Some (JStr "T1")
   ∧ store (snd (setupAuth (sample_runtime handshake_answers)
                           (world_of store_with_secret)))
       !! "sessionToken" = Some (JStr "T2")
   ∧ store (snd (setupAuth (sample_runtime handshake_answers)
                           (world_of store_with_secret)))
       !! "userId" = Some (JStr "42"))
  ∧ (fst (setupAuth (sample_runtime (answers_until 0))
                    (world_of store_with_secret)) = Exit 1
     ∧ length (requests (snd (setupAuth (sample_runtime (answers_until 0))
                                        (world_of store_with_secret)))) = 1)
  ∧ (fst (setupAuth (sample_runtime (answers_until 1))
                    (world_of store_with_secret)) = Exit 1
     ∧ length (requests (snd (setupAuth (sample_runtime (answers_until 1))
                                        (world_of store_with_secret)))) = 2)
  ∧ (fst (setupAuth (sample_runtime (answers_until 2))
                    (world_of store_with_secret)) = Exit 1
     ∧ length (requests (snd (setupAuth (sample_runtime (answers_until 2))
                                        (world_of store_with_secret)))) = 3).
Proof.
  pose (w := world_of store_with_secret).
  pose (w0 := log_event (SpinnerStart "Setting up Bunq authentication...") w).
  split; [|split; [|split]].
  - exact (proj1 (setupAuth_end_to_end (sample_runtime handshake_answers) w
                    eq_refl)
             (envelope []) (fun _ => eq_refl) (fun _ => eq_refl)
             (fun _ => eq_refl)).
  - pose (rt := sample_runtime (answers_until 0)).
    pose (w1 := snd (setupAuth_keypair rt w0)).
    pose (w2 := snd (setupAuth_installation rt "PUBLIC KEY 0" w1)).
    destruct (proj1 (proj2 (setupAuth_end_to_end rt w eq_refl))
                ("PRIVATE KEY 0", "PUBLIC KEY 0") w1 unauthorized w2
                eq_refl eq_refl) as [Hlength (line & _ & Hrun)].
    fold rt w. rewrite Hrun. split; [reflexivity | exact Hlength].
  - pose (rt := sample_runtime (answers_until 1)).
    pose (w1 := snd (setupAuth_keypair rt w0)).
    pose (w2 := snd (setupAuth_installation rt "PUBLIC KEY 0" w1)).
    pose (w3 := snd (setupAuth_device rt (store w) (JStr "T1") w2)).
    destruct (proj1 (proj2 (proj2 (setupAuth_end_to_end rt w eq_refl)))
                ("PRIVATE KEY 0", "PUBLIC KEY 0") w1 (JStr "T1") w2
                unauthorized w3 eq_refl eq_refl eq_refl)
      as [Hlength (line & _ & Hrun)].
    fold rt w. rewrite Hrun. split; [reflexivity | exact Hlength].
  - pose (rt := sample_runtime (answers_until 2)).
    pose (w1 := snd (setupAuth_keypair rt w0)).
    pose (w2 := snd (setupAuth_installation rt "PUBLIC KEY 0" w1)).
    pose (w3 := snd (setupAuth_device rt (store w) (JStr "T1") w2)).
    pose (w4 := snd (setupAuth_session rt (store w) (JStr "T1") w3)).
    destruct (proj1 (proj2 (proj2 (proj2 (setupAuth_end_to_end rt w eq_refl))))
                ("PRIVATE KEY 0", "PUBLIC KEY 0") w1 (JStr "T1") w2 w3
                unauthorized w4 eq_refl eq_refl eq_refl eq_refl)
      as [Hlength (line & _ & Hrun)].
    fold rt w. rewrite Hrun. split; [reflexivity | exact Hlength].
Defined.

(** C1, as the specification has it, fails where it has the error surfaced
    unchanged. The run does not end with the error thrown by the failing
    call but with status 1; and what it shows does not tell the error: a
    plain error and a type error of the same message give the same run, and
    so do two rejections that differ in their message only. *)
Lemma setupAuth_error_not_surfaced_unchanged :
  fst (setupAuth (rejecting_runtime unauthorized) (world_of store_with_secret))
    ≠ Throw unauthorized
  ∧ Error_ "x" ≠ TypeError_ "x"
  ∧ setupAuth (rejecting_runtime (Error_ "x")) (world_of store_with_secret)
    = setupAuth (rejecting_runtime (TypeError_ "x")) (world_of store_with_secret)
  ∧ AxiosError_ "Request failed with status code 401" (Some (401%Z, JNull))
    ≠ AxiosError_ "Network Error" (Some (401%Z, JNull))
  ∧ setupAuth (rejecting_runtime
                 (AxiosError_ "Request failed with status code 401"
                              (Some (401%Z, JNull))))
              (world_of store_with_secret)
    = setupAuth (rejecting_runtime
                   (AxiosError_ "Network Error" (Some (401%Z, JNull))))
                (world_of store_with_secret).
Proof.
  split; [vm_compute; discriminate|].
  split; [discriminate|].
  split; [vm_compute; reflexivity|].
  split; [discriminate|].
  vm_compute; reflexivity.
Qed.
